(** * rawviewer: the native RAW thumbnail / preview wrappers

    A shallow embedding of the two LibRaw wrappers of the repository,
    [android/app/src/main/cpp/wrapper.cpp] and [windows/native_lib/wrapper.cpp],
    and the properties of the decode operations they export.

    The wrappers are straight-line C++ around an external codec (LibRaw),
    [malloc]/[free] and one per-pixel loop.  They are embedded as programs
    of a small state monad whose state holds the C heap, the call's
    [LibRaw] object and a log of the externally visible operations; a
    computation that has undefined behaviour in C++ (an access outside a
    buffer, a signed overflow) has no result. *)

From Stdlib Require Import ZArith Lia.
From stdpp Require Import base option list gmap numbers strings.

Local Open Scope Z_scope.

(** ** C integers *)

Definition INT_MAX : Z := 2147483647.
Definition INT_MIN : Z := -2147483648.

Definition in_int (z : Z) : bool := (INT_MIN <=? z) && (z <=? INT_MAX).

(** Conversion of an [unsigned] value to [int] (modular). *)
Definition to_int (u : Z) : Z := (u + 2 ^ 31) mod 2 ^ 32 - 2 ^ 31.

(** Conversion of an [int] to a [size_t] of [bits] bits. *)
Definition to_size_t (bits n : Z) : Z := n mod 2 ^ bits.

(** [int] multiplication and addition; signed overflow is undefined. *)
Definition int_mul (a b : Z) : option Z :=
  if in_int (a * b) then Some (a * b) else None.

Definition int_add (a b : Z) : option Z :=
  if in_int (a + b) then Some (a + b) else None.

(** ** Data *)

Definition uint8_t : Type := Byte.byte.

(** A pointer returned by [malloc]; [nullptr] is address 0. *)
Definition ptr : Type := N.
Definition nullptr : ptr := 0%N.

(** LibRaw result codes and image formats.  [libraw.h] is not part of the
    wrappers; the values are the ones the wrappers rely on
    (windows wrapper.cpp:59-60 for the two image formats). *)
Definition LIBRAW_SUCCESS : Z := 0.
Definition LIBRAW_IMAGE_JPEG : Z := 1.
Definition LIBRAW_IMAGE_BITMAP : Z := 2.

(** [libraw_processed_image_t]: what the codec hands back from
    [dcraw_make_mem_thumb] and [dcraw_make_mem_image]. *)
Module Image.
Record t : Type := mk {
  type : Z;
  height : Z;
  width : Z;
  colors : Z;
  bits : Z;
  data_size : Z;
  data : list uint8_t
}.
End Image.

(** The fields of [imgdata.params] the wrappers assign. *)
Module Params.
Record t : Type := mk {
  use_camera_wb : Z;
  half_size : Z;
  output_bps : Z;
  output_color : Z
}.
Definition set_use_camera_wb (v : Z) (p : t) : t :=
  mk v (half_size p) (output_bps p) (output_color p).
Definition set_half_size (v : Z) (p : t) : t :=
  mk (use_camera_wb p) v (output_bps p) (output_color p).
Definition set_output_bps (v : Z) (p : t) : t :=
  mk (use_camera_wb p) (half_size p) v (output_color p).
Definition set_output_color (v : Z) (p : t) : t :=
  mk (use_camera_wb p) (half_size p) (output_bps p) v.
End Params.

(** struct ThumbnailResult (both wrappers, lines 15-21). *)
Module ThumbnailResult.
Record t : Type := mk {
  data : ptr;
  size : Z;
  width : Z;
  height : Z;
  format : Z
}.
Definition set_data (v : ptr) (r : t) : t := mk v (size r) (width r) (height r) (format r).
Definition set_size (v : Z) (r : t) : t := mk (data r) v (width r) (height r) (format r).
Definition set_width (v : Z) (r : t) : t := mk (data r) (size r) v (height r) (format r).
Definition set_height (v : Z) (r : t) : t := mk (data r) (size r) (width r) v (format r).
Definition set_format (v : Z) (r : t) : t := mk (data r) (size r) (width r) (height r) v.
(** [{nullptr, 0, 0, 0, 0}] *)
Definition zero : t := mk nullptr 0 0 0 0.
End ThumbnailResult.

(** struct ImageResult (both wrappers, lines 23-28). *)
Module ImageResult.
Record t : Type := mk {
  data : ptr;
  size : Z;
  width : Z;
  height : Z
}.
Definition set_data (v : ptr) (r : t) : t := mk v (size r) (width r) (height r).
Definition set_size (v : Z) (r : t) : t := mk (data r) v (width r) (height r).
Definition set_width (v : Z) (r : t) : t := mk (data r) (size r) v (height r).
Definition set_height (v : Z) (r : t) : t := mk (data r) (size r) (width r) v.
(** [{nullptr, 0, 0, 0}] *)
Definition zero : t := mk nullptr 0 0 0.
End ImageResult.

(** What a [LibRaw] object is opened from: [open_file(const char* )],
    [open_file(const wchar_t* )] or [open_buffer(void*, size_t)]. *)
Inductive Source : Type :=
  | FilePath (file_path : string)
  | WideFilePath (file_path : list Z)
  | MemBuffer (buffer : list uint8_t) (size : Z).

(** ** The external collaborators

    The codec is opaque: for a source and the parameters in force it
    answers with result codes and images.  The wrappers are verified
    against every such codec. *)
Record Codec : Type := {
  default_params : Params.t;
  open_ret : Source -> Z;
  unpack_thumb_ret : Source -> Z;
  mem_thumb : Source -> option Image.t;
  unpack_ret : Source -> Params.t -> Z;
  dcraw_process_ret : Source -> Params.t -> Z;
  mem_image : Source -> Params.t -> option Image.t
}.

(** The C allocator: whether a request of a given size succeeds, the byte
    a new block is filled with, and the width of [size_t]. *)
Record Allocator : Type := {
  size_t_bits : Z;
  alloc_ok : Z -> bool;
  fill : uint8_t
}.

(** ** State and events *)

Inductive Event : Type :=
  | EvCreate
  | EvOpen (s : Source) (ret : Z)
  | EvUnpackThumb (ret : Z)
  | EvMakeMemThumb (found : bool)
  | EvUnpack (p : Params.t) (ret : Z)
  | EvProcess (p : Params.t) (ret : Z)
  | EvMakeMemImage (p : Params.t) (found : bool)
  | EvClearMem
  | EvRecycle
  | EvDestroy
  | EvMalloc (n : Z) (p : ptr)
  | EvFree (p : ptr)
  | EvLog (msg : string).

(** The automatic [LibRaw RawProcessor] of a decode call. *)
Record LibRaw : Type := {
  opened : option Source;
  params : Params.t
}.

(** [heap]: the live [malloc] blocks; [rawproc]: the call's [LibRaw]
    object while it is alive; [trace]: the operations performed so far,
    most recent first. *)
Record State : Type := {
  heap : gmap N (list uint8_t);
  rawproc : option LibRaw;
  trace : list Event
}.

Definition emit (e : Event) (st : State) : State :=
  {| heap := heap st; rawproc := rawproc st; trace := e :: trace st |}.

Definition with_heap (h : gmap N (list uint8_t)) (st : State) : State :=
  {| heap := h; rawproc := rawproc st; trace := trace st |}.

Definition with_rawproc (o : option LibRaw) (st : State) : State :=
  {| heap := heap st; rawproc := o; trace := trace st |}.

(** ** The monad: state, and no result on undefined behaviour *)

Definition M (A : Type) : Type := State -> option (A * State).

#[global] Instance M_ret : MRet M := fun A a st => Some (a, st).
#[global] Instance M_bind : MBind M := fun A B f m st =>
  match m st with
  | Some (a, st') => f a st'
  | None => None
  end.

Definition lift {A : Type} (o : option A) : M A := fun st =>
  match o with
  | Some a => Some (a, st)
  | None => None
  end.

(** ** Primitive operations *)

Definition event (e : Event) : M unit := fun st => Some (tt, emit e st).

(** [LOGD] and [LOGE] ([__android_log_print]): diagnostics only; the
    format string stands for the message. *)
Definition LOGD (msg : string) : M unit := event (EvLog msg).

Definition LOGE (msg : string) : M unit := event (EvLog msg).

Definition get_rawproc : M LibRaw := fun st =>
  match rawproc st with
  | Some rp => Some (rp, st)
  | None => None
  end.

Definition put_rawproc (rp : LibRaw) : M unit := fun st =>
  Some (tt, with_rawproc (Some rp) st).

(** [RawProcessor.imgdata.params.f = v] *)
Definition set_params (f : Params.t -> Params.t) : M unit :=
  rp ← get_rawproc;
  put_rawproc {| opened := opened rp; params := f (params rp) |}.

(** [dcraw_clear_mem(image)] *)
Definition dcraw_clear_mem : M unit := event EvClearMem.

(** [RawProcessor.recycle()]: releases what was opened; the parameters stay. *)
Definition recycle : M unit :=
  rp ← get_rawproc;
  put_rawproc {| opened := None; params := params rp |};;
  event EvRecycle.

(** End of the lifetime of the automatic [LibRaw] object: its destructor
    runs and the object, with whatever it had opened, is gone. *)
Definition LibRaw_dtor : M unit := fun st =>
  Some (tt, emit EvDestroy (with_rawproc None st)).

(** [free(p)]: a no-op on [nullptr], undefined on anything that is not a
    live block. *)
Definition free (p : ptr) : M unit := fun st =>
  if (p =? nullptr)%N then Some (tt, st)
  else match heap st !! p with
       | Some _ => Some (tt, emit (EvFree p) (with_heap (delete p (heap st)) st))
       | None => None
       end.

(** [src[idx]] and [dst[idx] = v] on a buffer of known extent. *)
Definition load (buf : list uint8_t) (idx : Z) : option uint8_t :=
  if 0 <=? idx then buf !! Z.to_nat idx else None.

Definition store (buf : list uint8_t) (idx : Z) (v : uint8_t) : option (list uint8_t) :=
  if (0 <=? idx) && (idx <? Z.of_nat (length buf))
  then Some (<[Z.to_nat idx := v]> buf)
  else None.

(** [i * 3 + k] in [int]. *)
Definition index3 (i k : Z) : option Z := m ← int_mul i 3; int_add m k.

(** The conversion loop (android wrapper.cpp:90-94 and 166-170, windows
    wrapper.cpp:104-108 and 160-164, textually the same):
<<
    for (int i = 0; i < total_pixels; ++i) {
        dst[i * 3 + 0] = src[i * 3 + 2]; // B
        dst[i * 3 + 1] = src[i * 3 + 1]; // G
        dst[i * 3 + 2] = src[i * 3 + 0]; // R
    }
>>
    [n] is the number of iterations left and [i] the loop variable. *)
Fixpoint swap_loop (n : nat) (i : Z) (src dst : list uint8_t) : option (list uint8_t) :=
  match n with
  | O => Some dst
  | S n' =>
      d0 ← index3 i 0; s2 ← index3 i 2; b ← load src s2; dst ← store dst d0 b;
      d1 ← index3 i 1; s1 ← index3 i 1; g ← load src s1; dst ← store dst d1 g;
      d2 ← index3 i 2; s0 ← index3 i 0; r ← load src s0; dst ← store dst d2 r;
      i' ← int_add i 1;
      swap_loop n' i' src dst
  end.

(** The loop run on the block [dst] points to. *)
Definition swap_channels (dst : ptr) (src : list uint8_t) (total_pixels : Z) : M unit := fun st =>
  match heap st !! dst with
  | Some blk =>
      match swap_loop (Z.to_nat total_pixels) 0 src blk with
      | Some blk' => Some (tt, with_heap (<[dst := blk']> (heap st)) st)
      | None => None
      end
  | None => None
  end.

(** free_buffer (both wrappers, lines 31-35). *)
Definition free_buffer (buffer : ptr) : M unit :=
  if negb (buffer =? nullptr)%N then free buffer else mret tt.

Section Collaborators.
Variable codec : Codec.
Variable alloc : Allocator.

(** [LibRaw RawProcessor;] *)
Definition LibRaw_ctor : M unit := fun st =>
  Some (tt, emit EvCreate
              (with_rawproc (Some {| opened := None; params := default_params codec |}) st)).

(** A block whose automatic [LibRaw] object dies at every exit. *)
Definition scoped {A : Type} (body : M A) : M A :=
  LibRaw_ctor;; r ← body; LibRaw_dtor;; mret r.

Definition open (s : Source) : M Z :=
  rp ← get_rawproc;
  let ret := open_ret codec s in
  put_rawproc {| opened := if ret =? LIBRAW_SUCCESS then Some s else None;
                 params := params rp |};;
  event (EvOpen s ret);;
  mret ret.

Definition open_file (file_path : string) : M Z := open (FilePath file_path).
Definition open_file_w (file_path : list Z) : M Z := open (WideFilePath file_path).
Definition open_buffer (buffer : list uint8_t) (size : Z) : M Z :=
  open (MemBuffer buffer size).

Definition unpack_thumb : M Z :=
  rp ← get_rawproc;
  s ← lift (opened rp);
  let ret := unpack_thumb_ret codec s in
  event (EvUnpackThumb ret);;
  mret ret.

Definition dcraw_make_mem_thumb : M (option Image.t) :=
  rp ← get_rawproc;
  s ← lift (opened rp);
  let thumb := mem_thumb codec s in
  event (EvMakeMemThumb (bool_decide (is_Some thumb)));;
  mret thumb.

Definition unpack : M Z :=
  rp ← get_rawproc;
  s ← lift (opened rp);
  let ret := unpack_ret codec s (params rp) in
  event (EvUnpack (params rp) ret);;
  mret ret.

Definition dcraw_process : M Z :=
  rp ← get_rawproc;
  s ← lift (opened rp);
  let ret := dcraw_process_ret codec s (params rp) in
  event (EvProcess (params rp) ret);;
  mret ret.

Definition dcraw_make_mem_image : M (option Image.t) :=
  rp ← get_rawproc;
  s ← lift (opened rp);
  let image := mem_image codec s (params rp) in
  event (EvMakeMemImage (params rp) (bool_decide (is_Some image)));;
  mret image.

(** [malloc(n)] with [n] an [int] converted to [size_t]: on success a
    block at an address that is neither null nor live. *)
Definition malloc (n : Z) : M ptr := fun st =>
  let sz := to_size_t (size_t_bits alloc) n in
  if alloc_ok alloc sz then
    let p := fresh ({[nullptr]} ∪ dom (heap st)) in
    Some (p, emit (EvMalloc sz p)
               (with_heap (<[p := replicate (Z.to_nat sz) (fill alloc)]> (heap st)) st))
  else Some (nullptr, emit (EvMalloc sz nullptr) st).

(** [memcpy(dst, src, n)] with [n] an [int] converted to [size_t]. *)
Definition memcpy (dst : ptr) (src : list uint8_t) (n : Z) : M unit := fun st =>
  let cnt := Z.to_nat (to_size_t (size_t_bits alloc) n) in
  match heap st !! dst with
  | Some blk =>
      if (cnt <=? length src)%nat && (cnt <=? length blk)%nat
      then Some (tt, with_heap (<[dst := take cnt src ++ drop cnt blk]> (heap st)) st)
      else None
  | None => None
  end.
End Collaborators.

(** ** android/app/src/main/cpp/wrapper.cpp *)
Module Android.
Section Wrapper.
Variable codec : Codec.
Variable alloc : Allocator.

(** process_thumbnail (lines 37-106), run on the caller's [RawProcessor]. *)
Definition process_thumbnail : M ThumbnailResult.t :=
  let result := ThumbnailResult.zero in
  (* Try to unpack thumbnail *)
  rc ← unpack_thumb codec;
  early ← (if rc =? LIBRAW_SUCCESS then
             thumb ← dcraw_make_mem_thumb codec;
             match thumb with
             | Some thumb =>
                 let result := ThumbnailResult.set_size (to_int (Image.data_size thumb)) result in
                 data ← malloc alloc (ThumbnailResult.size result);
                 let result := ThumbnailResult.set_data data result in
                 (if negb (ThumbnailResult.data result =? nullptr)%N
                  then memcpy alloc (ThumbnailResult.data result) (Image.data thumb)
                              (ThumbnailResult.size result)
                  else mret tt);;
                 let result :=
                   if Image.type thumb =? LIBRAW_IMAGE_JPEG then
                     ThumbnailResult.set_format 0 result
                   else if Image.type thumb =? LIBRAW_IMAGE_BITMAP then
                     ThumbnailResult.set_height (Image.height thumb)
                       (ThumbnailResult.set_width (Image.width thumb)
                          (ThumbnailResult.set_format 1 result))
                   else result in
                 dcraw_clear_mem;;
                 mret (Some result)
             | None => mret None
             end
           else
             LOGD "unpack_thumb failed";; mret None);
  match early with
  | Some result => mret result
  | None =>
      (* Fallback: Generate preview from raw data *)
      set_params (Params.set_use_camera_wb 1);;
      set_params (Params.set_half_size 1);;
      set_params (Params.set_output_bps 8);;
      rc ← unpack codec;
      if rc =? LIBRAW_SUCCESS then
        rc ← dcraw_process codec;
        if rc =? LIBRAW_SUCCESS then
          image ← dcraw_make_mem_image codec;
          match image with
          | Some image =>
              let result := ThumbnailResult.set_format 1 result in
              let result := ThumbnailResult.set_width (Image.width image) result in
              let result := ThumbnailResult.set_height (Image.height image) result in
              let result := ThumbnailResult.set_size (to_int (Image.data_size image)) result in
              data ← malloc alloc (ThumbnailResult.size result);
              let result := ThumbnailResult.set_data data result in
              (if negb (ThumbnailResult.data result =? nullptr)%N then
                 total_pixels ← lift (int_mul (ThumbnailResult.width result)
                                              (ThumbnailResult.height result));
                 swap_channels (ThumbnailResult.data result) (Image.data image) total_pixels
               else mret tt);;
              dcraw_clear_mem;;
              mret result
          | None => mret result
          end
        else
          LOGD "dcraw_process failed";; mret result
      else
        LOGD "unpack failed";; mret result
  end.

(** get_thumbnail (lines 108-119). *)
Definition get_thumbnail (file_path : string) : M ThumbnailResult.t :=
  scoped codec (
    ret ← open_file codec file_path;
    if negb (ret =? LIBRAW_SUCCESS) then
      LOGE "open_file failed: %d for %s";;
      mret ThumbnailResult.zero
    else
      result ← process_thumbnail;
      recycle;;
      mret result).

(** get_thumbnail_from_buffer (lines 121-132). *)
Definition get_thumbnail_from_buffer (buffer : list uint8_t) (size : Z) : M ThumbnailResult.t :=
  scoped codec (
    ret ← open_buffer codec buffer size;
    if negb (ret =? LIBRAW_SUCCESS) then
      LOGE "open_buffer failed: %d";;
      mret ThumbnailResult.zero
    else
      result ← process_thumbnail;
      recycle;;
      mret result).

(** process_preview (lines 134-176). *)
Definition process_preview (half_size : Z) : M ImageResult.t :=
  let result := ImageResult.zero in
  (* Set parameters for speed, sacrificing some quality *)
  set_params (Params.set_use_camera_wb 1);;
  set_params (Params.set_half_size half_size);;
  set_params (Params.set_output_bps 8);;
  set_params (Params.set_output_color 1);;
  rc ← unpack codec;
  if negb (rc =? LIBRAW_SUCCESS) then mret result
  else
    rc ← dcraw_process codec;
    if negb (rc =? LIBRAW_SUCCESS) then mret result
    else
      (* Convert to memory image *)
      image ← dcraw_make_mem_image codec;
      match image with
      | Some image =>
          let result := ImageResult.set_width (Image.width image) result in
          let result := ImageResult.set_height (Image.height image) result in
          let result := ImageResult.set_size (to_int (Image.data_size image)) result in
          data ← malloc alloc (ImageResult.size result);
          let result := ImageResult.set_data data result in
          (if negb (ImageResult.data result =? nullptr)%N then
             total_pixels ← lift (int_mul (ImageResult.width result)
                                          (ImageResult.height result));
             swap_channels (ImageResult.data result) (Image.data image) total_pixels
           else mret tt);;
          dcraw_clear_mem;;
          mret result
      | None => mret result
      end.

(** get_preview (lines 179-190). *)
Definition get_preview (file_path : string) (half_size : Z) : M ImageResult.t :=
  scoped codec (
    ret ← open_file codec file_path;
    if negb (ret =? LIBRAW_SUCCESS) then
      LOGE "get_preview open_file failed: %d";;
      mret ImageResult.zero
    else
      result ← process_preview half_size;
      recycle;;
      mret result).

(** get_preview_from_buffer (lines 192-203). *)
Definition get_preview_from_buffer (buffer : list uint8_t) (size : Z) (half_size : Z)
  : M ImageResult.t :=
  scoped codec (
    ret ← open_buffer codec buffer size;
    if negb (ret =? LIBRAW_SUCCESS) then
      LOGE "get_preview open_buffer failed: %d";;
      mret ImageResult.zero
    else
      result ← process_preview half_size;
      recycle;;
      mret result).
End Wrapper.
End Android.

(** ** windows/native_lib/wrapper.cpp *)
Module Windows.
Section Wrapper.
Variable codec : Codec.
Variable alloc : Allocator.

(** get_thumbnail (lines 37-117). *)
Definition get_thumbnail (file_path : list Z) : M ThumbnailResult.t :=
  scoped codec (
    let result := ThumbnailResult.zero in
    ret ← open_file_w codec file_path;
    if negb (ret =? LIBRAW_SUCCESS) then mret result
    else
      (* Try to unpack thumbnail *)
      rc ← unpack_thumb codec;
      early ← (if rc =? LIBRAW_SUCCESS then
                 thumb ← dcraw_make_mem_thumb codec;
                 match thumb with
                 | Some thumb =>
                     let result :=
                       ThumbnailResult.set_size (to_int (Image.data_size thumb)) result in
                     data ← malloc alloc (ThumbnailResult.size result);
                     let result := ThumbnailResult.set_data data result in
                     (if negb (ThumbnailResult.data result =? nullptr)%N
                      then memcpy alloc (ThumbnailResult.data result) (Image.data thumb)
                                  (ThumbnailResult.size result)
                      else mret tt);;
                     let result :=
                       if Image.type thumb =? LIBRAW_IMAGE_JPEG then
                         ThumbnailResult.set_format 0 result
                       else if Image.type thumb =? LIBRAW_IMAGE_BITMAP then
                         ThumbnailResult.set_height (Image.height thumb)
                           (ThumbnailResult.set_width (Image.width thumb)
                              (ThumbnailResult.set_format 1 result))
                       else result in
                     dcraw_clear_mem;;
                     recycle;;
                     mret (Some result)
                 | None => mret None
                 end
               else mret None);
      match early with
      | Some result => mret result
      | None =>
          (* Fallback: Set parameters for fast processing *)
          set_params (Params.set_use_camera_wb 1);;
          set_params (Params.set_half_size 1);;
          set_params (Params.set_output_bps 8);;
          rc ← unpack codec;
          result ←
            (if rc =? LIBRAW_SUCCESS then
               rc ← dcraw_process codec;
               if rc =? LIBRAW_SUCCESS then
                 image ← dcraw_make_mem_image codec;
                 match image with
                 | Some image =>
                     let result := ThumbnailResult.set_format 1 result in
                     let result := ThumbnailResult.set_width (Image.width image) result in
                     let result := ThumbnailResult.set_height (Image.height image) result in
                     let result :=
                       ThumbnailResult.set_size (to_int (Image.data_size image)) result in
                     data ← malloc alloc (ThumbnailResult.size result);
                     let result := ThumbnailResult.set_data data result in
                     (if negb (ThumbnailResult.data result =? nullptr)%N then
                        total_pixels ← lift (int_mul (ThumbnailResult.width result)
                                                     (ThumbnailResult.height result));
                        swap_channels (ThumbnailResult.data result) (Image.data image)
                                      total_pixels
                      else mret tt);;
                     dcraw_clear_mem;;
                     mret result
                 | None => mret result
                 end
               else mret result
             else mret result);
          recycle;;
          mret result
      end).

(** get_preview (lines 120-171). *)
Definition get_preview (file_path : list Z) (half_size : Z) : M ImageResult.t :=
  scoped codec (
    let result := ImageResult.zero in
    (* Set parameters for speed, sacrificing some quality *)
    set_params (Params.set_use_camera_wb 1);;
    set_params (Params.set_half_size half_size);;
    set_params (Params.set_output_bps 8);;
    set_params (Params.set_output_color 1);;
    ret ← open_file_w codec file_path;
    if negb (ret =? LIBRAW_SUCCESS) then mret result
    else
      rc ← unpack codec;
      if negb (rc =? LIBRAW_SUCCESS) then recycle;; mret result
      else
        rc ← dcraw_process codec;
        if negb (rc =? LIBRAW_SUCCESS) then recycle;; mret result
        else
          (* Convert to memory image *)
          image ← dcraw_make_mem_image codec;
          result ←
            match image with
            | Some image =>
                let result := ImageResult.set_width (Image.width image) result in
                let result := ImageResult.set_height (Image.height image) result in
                let result := ImageResult.set_size (to_int (Image.data_size image)) result in
                data ← malloc alloc (ImageResult.size result);
                let result := ImageResult.set_data data result in
                (if negb (ImageResult.data result =? nullptr)%N then
                   total_pixels ← lift (int_mul (ImageResult.width result)
                                                (ImageResult.height result));
                   swap_channels (ImageResult.data result) (Image.data image) total_pixels
                 else mret tt);;
                dcraw_clear_mem;;
                mret result
            | None => mret result
            end;
          recycle;;
          mret result).
End Wrapper.
End Windows.

(** ** The entry points, uniformly *)

(** The three ways a decode operation is reached: the Android path and
    buffer variants and the Windows (wide) path variant. *)
Inductive Entry : Type :=
  | AndroidFile (file_path : string)
  | AndroidBuffer (buffer : list uint8_t) (size : Z)
  | WindowsFile (file_path : list Z).

Definition source_of (e : Entry) : Source :=
  match e with
  | AndroidFile file_path => FilePath file_path
  | AndroidBuffer buffer size => MemBuffer buffer size
  | WindowsFile file_path => WideFilePath file_path
  end.

Definition thumbnail_op (codec : Codec) (alloc : Allocator) (e : Entry) : M ThumbnailResult.t :=
  match e with
  | AndroidFile file_path => Android.get_thumbnail codec alloc file_path
  | AndroidBuffer buffer size => Android.get_thumbnail_from_buffer codec alloc buffer size
  | WindowsFile file_path => Windows.get_thumbnail codec alloc file_path
  end.

Definition preview_op (codec : Codec) (alloc : Allocator) (e : Entry) (half_size : Z)
  : M ImageResult.t :=
  match e with
  | AndroidFile file_path => Android.get_preview codec alloc file_path half_size
  | AndroidBuffer buffer size => Android.get_preview_from_buffer codec alloc buffer size half_size
  | WindowsFile file_path => Windows.get_preview codec alloc file_path half_size
  end.

(** The parameters in force when the thumbnail fallback, respectively a
    preview, reaches the codec: the assignments of the wrappers applied to
    the parameters of a new [LibRaw] object. *)
Definition fallback_params (codec : Codec) : Params.t :=
  Params.set_output_bps 8
    (Params.set_half_size 1
       (Params.set_use_camera_wb 1 (default_params codec))).

Definition preview_params (codec : Codec) (half_size : Z) : Params.t :=
  Params.set_output_color 1
    (Params.set_output_bps 8
       (Params.set_half_size half_size
          (Params.set_use_camera_wb 1 (default_params codec)))).

(** ** Observations *)

Definition is_log (e : Event) : bool :=
  match e with
  | EvLog _ => true
  | _ => false
  end.

(** A trace without its diagnostics. *)
Definition quiet (tr : list Event) : list Event :=
  List.filter (fun e => negb (is_log e)) tr.

(** [st'] is what a decode call leaves of [st]: heap [h], no [LibRaw]
    object alive, and the operations [evs] (most recent first) on top of
    the earlier ones. *)
Definition leaves (st st' : State) (h : gmap N (list uint8_t)) (evs : list Event) : Prop :=
  heap st' = h /\ rawproc st' = None /\ quiet (trace st') = evs ++ quiet (trace st).

(** The bytes of pixel [i] of a buffer. *)
Definition pixel (buf : list uint8_t) (i : nat) : option (uint8_t * uint8_t * uint8_t) :=
  c0 ← buf !! (3 * i)%nat; c1 ← buf !! (3 * i + 1)%nat; c2 ← buf !! (3 * i + 2)%nat;
  Some (c0, c1, c2).

(** The conversion the wrappers run on a new block [blk] for [image]. *)
Definition converted (image : Image.t) (blk : list uint8_t) : option (list uint8_t) :=
  total_pixels ← int_mul (Image.width image) (Image.height image);
  swap_loop (Z.to_nat total_pixels) 0 (Image.data image) blk.

(** The block [malloc] hands out for an [int] byte count. *)
Definition new_block (alloc : Allocator) (n : Z) : list uint8_t :=
  replicate (Z.to_nat (to_size_t (size_t_bits alloc) n)) (fill alloc).

Definition new_ptr (h : gmap N (list uint8_t)) : ptr := fresh ({[nullptr]} ∪ dom h).

(** ** What is assumed of the collaborators, where a property needs it *)

(** [size_t] holds every non-negative [int]. *)
Definition alloc_wf (alloc : Allocator) : Prop := 31 <= size_t_bits alloc.

(** A codec image is an 8-bit three-channel bitmap of [width * height]
    pixels whose byte count is an [int]: [width] and [height] are
    unsigned, [data] has [data_size = width * height * 3] bytes. *)
Definition rgb8 (image : Image.t) : Prop :=
  0 <= Image.width image /\ 0 <= Image.height image /\
  Image.colors image = 3 /\ Image.bits image = 8 /\
  Image.data_size image = Image.width image * Image.height image * 3 /\
  Z.of_nat (length (Image.data image)) = Image.data_size image /\
  Image.data_size image <= INT_MAX.

(** A codec payload of [data_size] bytes, with [data_size] an [int]. *)
Definition payload_wf (image : Image.t) : Prop :=
  Z.of_nat (length (Image.data image)) = Image.data_size image /\
  Image.data_size image <= INT_MAX.

(** The outcome of the embedded-thumbnail attempt of the wrappers
    ([unpack_thumb] then [dcraw_make_mem_thumb]) as the codec answers it,
    and the operations the attempt leaves in the trace. *)
Definition embedded (codec : Codec) (src : Source) : option Image.t :=
  if unpack_thumb_ret codec src =? LIBRAW_SUCCESS then mem_thumb codec src else None.

Definition thumb_attempt (codec : Codec) (src : Source) : list Event :=
  if unpack_thumb_ret codec src =? LIBRAW_SUCCESS
  then [EvMakeMemThumb (bool_decide (is_Some (mem_thumb codec src)));
        EvUnpackThumb (unpack_thumb_ret codec src)]
  else [EvUnpackThumb (unpack_thumb_ret codec src)].

(** The image the codec materialises for [src] under the parameters [p]
    when it opens, unpacks and renders it; [None] when a stage fails. *)
Definition rendered (codec : Codec) (src : Source) (p : Params.t) : option Image.t :=
  if open_ret codec src =? LIBRAW_SUCCESS then
    if unpack_ret codec src p =? LIBRAW_SUCCESS then
      if dcraw_process_ret codec src p =? LIBRAW_SUCCESS then mem_image codec src p
      else None
    else None
  else None.

(** The [size_t] handed to [malloc] for the payload of [image]. *)
Definition malloc_request (alloc : Allocator) (image : Image.t) : Z :=
  to_size_t (size_t_bits alloc) (to_int (Image.data_size image)).

(** The descriptors the wrappers fill in for a codec image, given the
    pointer [malloc] returned. *)
Definition embedded_result (thumb : Image.t) (data : ptr) : ThumbnailResult.t :=
  let result :=
    ThumbnailResult.set_data data
      (ThumbnailResult.set_size (to_int (Image.data_size thumb)) ThumbnailResult.zero) in
  if Image.type thumb =? LIBRAW_IMAGE_JPEG then ThumbnailResult.set_format 0 result
  else if Image.type thumb =? LIBRAW_IMAGE_BITMAP then
    ThumbnailResult.set_height (Image.height thumb)
      (ThumbnailResult.set_width (Image.width thumb) (ThumbnailResult.set_format 1 result))
  else result.

Definition fallback_result (image : Image.t) (data : ptr) : ThumbnailResult.t :=
  ThumbnailResult.set_data data
    (ThumbnailResult.set_size (to_int (Image.data_size image))
       (ThumbnailResult.set_height (Image.height image)
          (ThumbnailResult.set_width (Image.width image)
             (ThumbnailResult.set_format 1 ThumbnailResult.zero)))).

Definition preview_result (image : Image.t) (data : ptr) : ImageResult.t :=
  ImageResult.set_data data
    (ImageResult.set_size (to_int (Image.data_size image))
       (ImageResult.set_height (Image.height image)
          (ImageResult.set_width (Image.width image) ImageResult.zero))).

(** The last operations of a call release its source: [recycle()] and the
    end of the object, or the end of an object whose open failed. *)
Definition released (evs : list Event) : bool :=
  match evs with
  | EvDestroy :: EvRecycle :: _ => true
  | [EvDestroy; EvOpen _ ret; EvCreate] => negb (ret =? LIBRAW_SUCCESS)
  | _ => false
  end.

(** A payload with at least one byte and an [int] byte count. *)
Definition nonempty_payload (image : Image.t) : Prop :=
  0 < Image.data_size image <= INT_MAX.

(** The codec renders its half-size image no larger than its full-size
    image of the same source, and image dimensions are unsigned. *)
Definition half_size_shrinks (codec : Codec) (src : Source) : Prop :=
  forall full : Image.t,
    mem_image codec src (preview_params codec 0) = Some full ->
    0 <= Image.width full /\ 0 <= Image.height full /\
    forall half : Image.t,
      mem_image codec src (preview_params codec 1) = Some half ->
      Image.width half <= Image.width full /\ Image.height half <= Image.height full.

(** Monotonic resolution scaling at one input: whenever the calls with
    [halfSize = 0] and [halfSize = 1] both return, the former's width and
    height are at least the latter's. *)
Definition half_size_monotone (codec : Codec) (alloc : Allocator) (e : Entry) (st : State)
  : Prop :=
  forall (r0 : ImageResult.t) (st0 : State) (r1 : ImageResult.t) (st1 : State),
    preview_op codec alloc e 0 st = Some (r0, st0) ->
    preview_op codec alloc e 1 st = Some (r1, st1) ->
    ImageResult.width r0 >= ImageResult.width r1 /\
    ImageResult.height r0 >= ImageResult.height r1.

(** ** Sample collaborators

    Scripted codecs and allocators on which the properties below are
    exercised. *)

(** A 2x1 and a 4x2 three-channel bitmap, a JPEG payload and a payload of
    a format the wrappers do not know. *)
Definition half_image : Image.t :=
  Image.mk LIBRAW_IMAGE_BITMAP 1 2 3 8 6
    [Byte.x01; Byte.x02; Byte.x03; Byte.x04; Byte.x05; Byte.x06].

Definition full_image : Image.t :=
  Image.mk LIBRAW_IMAGE_BITMAP 2 4 3 8 24
    [Byte.x01; Byte.x02; Byte.x03; Byte.x04; Byte.x05; Byte.x06;
     Byte.x07; Byte.x08; Byte.x09; Byte.x0a; Byte.x0b; Byte.x0c;
     Byte.x0d; Byte.x0e; Byte.x0f; Byte.x10; Byte.x11; Byte.x12;
     Byte.x13; Byte.x14; Byte.x15; Byte.x16; Byte.x17; Byte.x18].

Definition jpeg_thumb : Image.t :=
  Image.mk LIBRAW_IMAGE_JPEG 0 0 0 0 4 [Byte.xff; Byte.xd8; Byte.xff; Byte.xd9].

Definition odd_thumb : Image.t :=
  Image.mk 7 0 0 0 0 2 [Byte.x2a; Byte.x2b].

(** A 2x1 image of a single 8-bit channel, as the codec renders the
    file of a monochrome sensor: [data_size = width * height]. *)
Definition grey_image : Image.t :=
  Image.mk LIBRAW_IMAGE_BITMAP 1 2 1 8 2 [Byte.x10; Byte.x20].

Definition libraw_defaults : Params.t := Params.mk 0 0 8 1.

(** The codec renders [half_image] when asked for half size and
    [full_image] otherwise. *)
Definition render_by_size (p : Params.t) : option Image.t :=
  if Params.half_size p =? 1 then Some half_image else Some full_image.

(** A file with an embedded thumbnail [thumb]. *)
Definition codec_with_thumb (thumb : Image.t) : Codec := {|
  default_params := libraw_defaults;
  open_ret := fun _ => LIBRAW_SUCCESS;
  unpack_thumb_ret := fun _ => LIBRAW_SUCCESS;
  mem_thumb := fun _ => Some thumb;
  unpack_ret := fun _ _ => LIBRAW_SUCCESS;
  dcraw_process_ret := fun _ _ => LIBRAW_SUCCESS;
  mem_image := fun _ => render_by_size
|}.

(** A file without embedded thumbnail ([unpack_thumb] answers
    LIBRAW_NO_THUMBNAIL). *)
Definition codec_without_thumb : Codec := {|
  default_params := libraw_defaults;
  open_ret := fun _ => LIBRAW_SUCCESS;
  unpack_thumb_ret := fun _ => -5;
  mem_thumb := fun _ => None;
  unpack_ret := fun _ _ => LIBRAW_SUCCESS;
  dcraw_process_ret := fun _ _ => LIBRAW_SUCCESS;
  mem_image := fun _ => render_by_size
|}.

(** A file the codec cannot open (LIBRAW_FILE_UNSUPPORTED). *)
Definition codec_unsupported : Codec := {|
  default_params := libraw_defaults;
  open_ret := fun _ => -2;
  unpack_thumb_ret := fun _ => LIBRAW_SUCCESS;
  mem_thumb := fun _ => Some jpeg_thumb;
  unpack_ret := fun _ _ => LIBRAW_SUCCESS;
  dcraw_process_ret := fun _ _ => LIBRAW_SUCCESS;
  mem_image := fun _ => render_by_size
|}.

(** A file whose sensor data cannot be unpacked (LIBRAW_DATA_ERROR). *)
Definition codec_bad_data : Codec := {|
  default_params := libraw_defaults;
  open_ret := fun _ => LIBRAW_SUCCESS;
  unpack_thumb_ret := fun _ => -5;
  mem_thumb := fun _ => None;
  unpack_ret := fun _ _ => -4;
  dcraw_process_ret := fun _ _ => LIBRAW_SUCCESS;
  mem_image := fun _ => render_by_size
|}.

(** A file whose full-size rendering runs out of memory
    (LIBRAW_UNSUFFICIENT_MEMORY) while its half-size rendering fits. *)
Definition codec_low_memory : Codec := {|
  default_params := libraw_defaults;
  open_ret := fun _ => LIBRAW_SUCCESS;
  unpack_thumb_ret := fun _ => -5;
  mem_thumb := fun _ => None;
  unpack_ret := fun _ _ => LIBRAW_SUCCESS;
  dcraw_process_ret := fun _ p => if Params.half_size p =? 1 then LIBRAW_SUCCESS else -100007;
  mem_image := fun _ => render_by_size
|}.

(** A file of a monochrome sensor, without embedded thumbnail. *)
Definition codec_monochrome : Codec := {|
  default_params := libraw_defaults;
  open_ret := fun _ => LIBRAW_SUCCESS;
  unpack_thumb_ret := fun _ => -5;
  mem_thumb := fun _ => None;
  unpack_ret := fun _ _ => LIBRAW_SUCCESS;
  dcraw_process_ret := fun _ _ => LIBRAW_SUCCESS;
  mem_image := fun _ _ => Some grey_image
|}.

(** A file that unpacks and renders but whose image cannot be
    materialised. *)
Definition codec_no_image : Codec := {|
  default_params := libraw_defaults;
  open_ret := fun _ => LIBRAW_SUCCESS;
  unpack_thumb_ret := fun _ => LIBRAW_SUCCESS;
  mem_thumb := fun _ => None;
  unpack_ret := fun _ _ => LIBRAW_SUCCESS;
  dcraw_process_ret := fun _ _ => LIBRAW_SUCCESS;
  mem_image := fun _ _ => None
|}.

Definition alloc_plenty : Allocator :=
  {| size_t_bits := 64; alloc_ok := fun _ => true; fill := Byte.x00 |}.

Definition alloc_exhausted : Allocator :=
  {| size_t_bits := 64; alloc_ok := fun _ => false; fill := Byte.x00 |}.

Definition st_init : State := {| heap := ∅; rawproc := None; trace := [] |}.

Definition sample_file : Entry := AndroidFile "IMG_0001.CR2".
Definition sample_buffer : Entry := AndroidBuffer [Byte.x49; Byte.x49; Byte.x2a; Byte.x00] 4.
Definition sample_wide_file : Entry := WindowsFile [73; 77; 71; 46; 100; 110; 103].

(** ** Further observations on runs *)

(** What the caller of an operation can observe of it: the result and
    the heap it leaves; nothing when the run is undefined. *)
Definition observed {A : Type} (run : option (A * State))
  : option (A * gmap N (list uint8_t)) :=
  match run with
  | Some (a, st') => Some (a, heap st')
  | None => None
  end.

(** Two sources to which the codec gives the same answers. *)
Definition same_answers (codec : Codec) (s1 s2 : Source) : Prop :=
  open_ret codec s1 = open_ret codec s2 /\
  unpack_thumb_ret codec s1 = unpack_thumb_ret codec s2 /\
  mem_thumb codec s1 = mem_thumb codec s2 /\
  forall p : Params.t,
    unpack_ret codec s1 p = unpack_ret codec s2 p /\
    dcraw_process_ret codec s1 p = dcraw_process_ret codec s2 p /\
    mem_image codec s1 p = mem_image codec s2 p.

(** The result and heap of a preview, respectively thumbnail, operation
    written out from the codec's answers: the summary the branch lemmas
    below establish for the wrappers.  [h] is the heap of the call. *)
Definition bitmap_outcome {R : Type} (alloc : Allocator) (image : Image.t)
    (result : ptr -> R) (h : gmap N (list uint8_t)) : option (R * gmap N (list uint8_t)) :=
  if alloc_ok alloc (malloc_request alloc image) then
    match converted image (new_block alloc (to_int (Image.data_size image))) with
    | Some blk => Some (result (new_ptr h), <[new_ptr h := blk]> h)
    | None => None
    end
  else Some (result nullptr, h).

Definition preview_outcome (codec : Codec) (alloc : Allocator) (src : Source)
    (half_size : Z) (h : gmap N (list uint8_t))
  : option (ImageResult.t * gmap N (list uint8_t)) :=
  match rendered codec src (preview_params codec half_size) with
  | Some image => bitmap_outcome alloc image (preview_result image) h
  | None => Some (ImageResult.zero, h)
  end.

Definition thumbnail_outcome (codec : Codec) (alloc : Allocator) (src : Source)
    (h : gmap N (list uint8_t))
  : option (ThumbnailResult.t * gmap N (list uint8_t)) :=
  if negb (open_ret codec src =? LIBRAW_SUCCESS) then Some (ThumbnailResult.zero, h)
  else
    match embedded codec src with
    | Some thumb =>
        if alloc_ok alloc (malloc_request alloc thumb) then
          if (Z.to_nat (malloc_request alloc thumb) <=? length (Image.data thumb))%nat then
            Some (embedded_result thumb (new_ptr h),
                  <[new_ptr h := take (Z.to_nat (malloc_request alloc thumb))
                                      (Image.data thumb)]> h)
          else None
        else Some (embedded_result thumb nullptr, h)
    | None =>
        match rendered codec src (fallback_params codec) with
        | Some image => bitmap_outcome alloc image (fallback_result image) h
        | None => Some (ThumbnailResult.zero, h)
        end
    end.

(** The buffer of a returning run: none, with the heap as it was, or one
    new block of as many bytes as the [size_t] value of the byte count. *)
Definition buffer_of (alloc : Allocator) (h h' : gmap N (list uint8_t)) (data : ptr)
    (size : Z) : Prop :=
  (data = nullptr /\ h' = h) \/
  (data = new_ptr h /\
   exists blk,
     h' = <[data := blk]> h /\
     length blk = Z.to_nat (to_size_t (size_t_bits alloc) size)).

(** *** The order of the codec calls *)

(** Where a [LibRaw] object stands: whether it is alive, has a source
    open, has unpacked its thumbnail, unpacked its sensor data, rendered
    it, and how many images it has handed out that are not yet cleared. *)
Record Phase : Type := {
  alive : bool;
  has_source : bool;
  thumb_unpacked : bool;
  raw_unpacked : bool;
  raw_processed : bool;
  images_held : nat
}.

Definition phase_start : Phase :=
  {| alive := false; has_source := false; thumb_unpacked := false;
     raw_unpacked := false; raw_processed := false; images_held := 0 |}.

Definition succeeded (ret : Z) : bool := ret =? LIBRAW_SUCCESS.

(** One operation, allowed only where LibRaw documents it: a call on a
    live object, [unpack_thumb] and [unpack] on an open source,
    [dcraw_make_mem_thumb] after a successful [unpack_thumb],
    [dcraw_process] after a successful [unpack], [dcraw_make_mem_image]
    after a successful [dcraw_process], [dcraw_clear_mem] on an image
    that is held. *)
Definition phase_step (ph : Phase) (ev : Event) : option Phase :=
  match ev with
  | EvCreate =>
      if alive ph then None
      else Some {| alive := true; has_source := false; thumb_unpacked := false;
                   raw_unpacked := false; raw_processed := false;
                   images_held := images_held ph |}
  | EvOpen _ ret =>
      if alive ph && negb (has_source ph)
      then Some {| alive := true; has_source := succeeded ret; thumb_unpacked := false;
                   raw_unpacked := false; raw_processed := false;
                   images_held := images_held ph |}
      else None
  | EvUnpackThumb ret =>
      if alive ph && has_source ph
      then Some {| alive := true; has_source := true; thumb_unpacked := succeeded ret;
                   raw_unpacked := raw_unpacked ph; raw_processed := raw_processed ph;
                   images_held := images_held ph |}
      else None
  | EvMakeMemThumb found =>
      if alive ph && thumb_unpacked ph
      then Some {| alive := true; has_source := has_source ph;
                   thumb_unpacked := true;
                   raw_unpacked := raw_unpacked ph; raw_processed := raw_processed ph;
                   images_held := if found then S (images_held ph) else images_held ph |}
      else None
  | EvUnpack _ ret =>
      if alive ph && has_source ph
      then Some {| alive := true; has_source := true; thumb_unpacked := thumb_unpacked ph;
                   raw_unpacked := succeeded ret; raw_processed := false;
                   images_held := images_held ph |}
      else None
  | EvProcess _ ret =>
      if alive ph && raw_unpacked ph
      then Some {| alive := true; has_source := has_source ph;
                   thumb_unpacked := thumb_unpacked ph;
                   raw_unpacked := true; raw_processed := succeeded ret;
                   images_held := images_held ph |}
      else None
  | EvMakeMemImage _ found =>
      if alive ph && raw_processed ph
      then Some {| alive := true; has_source := has_source ph;
                   thumb_unpacked := thumb_unpacked ph;
                   raw_unpacked := true; raw_processed := true;
                   images_held := if found then S (images_held ph) else images_held ph |}
      else None
  | EvClearMem =>
      match images_held ph with
      | O => None
      | S n => Some {| alive := alive ph; has_source := has_source ph;
                       thumb_unpacked := thumb_unpacked ph;
                       raw_unpacked := raw_unpacked ph; raw_processed := raw_processed ph;
                       images_held := n |}
      end
  | EvRecycle =>
      if alive ph
      then Some {| alive := true; has_source := false; thumb_unpacked := false;
                   raw_unpacked := false; raw_processed := false;
                   images_held := images_held ph |}
      else None
  | EvDestroy =>
      if alive ph
      then Some {| alive := false; has_source := false; thumb_unpacked := false;
                   raw_unpacked := false; raw_processed := false;
                   images_held := images_held ph |}
      else None
  | EvMalloc _ _ | EvFree _ | EvLog _ => Some ph
  end.

(** The operations [evs], oldest first, from phase [ph]. *)
Fixpoint phase_run (ph : Phase) (evs : list Event) : option Phase :=
  match evs with
  | [] => Some ph
  | ev :: evs' =>
      match phase_step ph ev with
      | Some ph' => phase_run ph' evs'
      | None => None
      end
  end.

(** The operations of a call, given most recent first, are in order and
    leave no live object and no image that is not cleared. *)
Definition in_order (evs : list Event) : bool :=
  match phase_run phase_start (rev evs) with
  | Some ph => negb (alive ph) && (images_held ph =? 0)%nat
  | None => false
  end.

Definition is_render (ev : Event) : bool :=
  match ev with
  | EvUnpack _ _ | EvProcess _ _ | EvMakeMemImage _ _ => true
  | _ => false
  end.

Definition is_thumb (ev : Event) : bool :=
  match ev with
  | EvUnpackThumb _ | EvMakeMemThumb _ => true
  | _ => false
  end.

(** *** The conversion as a function on lists *)

(** Every complete triple of bytes reversed. *)
Fixpoint bgr (l : list uint8_t) : list uint8_t :=
  match l with
  | c0 :: c1 :: c2 :: rest => c2 :: c1 :: c0 :: bgr rest
  | _ => []
  end.

(** A 1x1 image of four 8-bit channels, and a file rendered as such. *)
Definition four_channel_image : Image.t :=
  Image.mk LIBRAW_IMAGE_BITMAP 1 1 4 8 4 [Byte.x0a; Byte.x0b; Byte.x0c; Byte.x0d].

Definition codec_four_channel : Codec := {|
  default_params := libraw_defaults;
  open_ret := fun _ => LIBRAW_SUCCESS;
  unpack_thumb_ret := fun _ => -5;
  mem_thumb := fun _ => None;
  unpack_ret := fun _ _ => LIBRAW_SUCCESS;
  dcraw_process_ret := fun _ _ => LIBRAW_SUCCESS;
  mem_image := fun _ _ => Some four_channel_image
|}.

(** An allocator that fills new blocks with a recognisable byte. *)
Definition alloc_marked : Allocator :=
  {| size_t_bits := 64; alloc_ok := fun _ => true; fill := Byte.xee |}.

(** An embedded payload of 2^31 + 16 bytes. *)
Definition huge_thumb : Image.t :=
  Image.mk LIBRAW_IMAGE_JPEG 0 0 0 0 2147483664
    (replicate (Z.to_nat 2147483664) Byte.xff).

(** The state a thumbnail call on a file with an embedded JPEG leaves:
    its buffer is live. *)
Definition st_with_buffer : State :=
  match thumbnail_op (codec_with_thumb jpeg_thumb) alloc_plenty sample_file st_init with
  | Some (_, st') => st'
  | None => st_init
  end.

(** The kind of an operation, whatever its arguments. *)
Definition kind (ev : Event) : nat :=
  match ev with
  | EvCreate => 0
  | EvOpen _ _ => 1
  | EvUnpackThumb _ => 2
  | EvMakeMemThumb _ => 3
  | EvUnpack _ _ => 4
  | EvProcess _ _ => 5
  | EvMakeMemImage _ _ => 6
  | EvClearMem => 7
  | EvRecycle => 8
  | EvDestroy => 9
  | EvMalloc _ _ => 10
  | EvFree _ => 11
  | EvLog _ => 12
  end.

Definition is_malloc (ev : Event) : bool :=
  match ev with
  | EvMalloc _ _ => true
  | _ => false
  end.
(** ** Integers *)

Lemma to_int_id (u : Z) : 0 <= u <= INT_MAX -> to_int u = u.
Proof.
  unfold to_int, INT_MAX. intros Hu.
  rewrite Z.mod_small by lia. lia.
Qed.

Lemma to_size_t_id (bits n : Z) : 31 <= bits -> 0 <= n <= INT_MAX -> to_size_t bits n = n.
Proof.
  unfold to_size_t, INT_MAX. intros Hb Hn.
  apply Z.mod_small. split; [lia|].
  assert (2 ^ 31 <= 2 ^ bits) by (apply Z.pow_le_mono_r; lia). lia.
Qed.

Lemma int_mul_Some (a b r : Z) : int_mul a b = Some r -> r = a * b /\ INT_MIN <= r <= INT_MAX.
Proof.
  unfold int_mul, in_int. destruct (_ && _) eqn:E; [|done].
  intros [= <-]. apply andb_true_iff in E as [?%Z.leb_le ?%Z.leb_le]. lia.
Qed.

Lemma int_mul_in_range (a b : Z) : INT_MIN <= a * b <= INT_MAX -> int_mul a b = Some (a * b).
Proof.
  unfold int_mul, in_int. intros [H1 H2].
  apply Z.leb_le in H1, H2. by rewrite H1, H2.
Qed.

Lemma int_add_in_range (a b : Z) : INT_MIN <= a + b <= INT_MAX -> int_add a b = Some (a + b).
Proof.
  unfold int_add, in_int. intros [H1 H2].
  apply Z.leb_le in H1, H2. by rewrite H1, H2.
Qed.

Lemma int_add_Some (a b r : Z) : int_add a b = Some r -> r = a + b.
Proof. unfold int_add. destruct (in_int _); [|done]. by intros [= <-]. Qed.

Lemma index3_Some (i k j : Z) : index3 i k = Some j -> j = 3 * i + k.
Proof.
  unfold index3. destruct (int_mul i 3) as [m|] eqn:E; [|done].
  apply int_mul_Some in E as [-> _]. simpl.
  intros ->%int_add_Some. lia.
Qed.

Lemma index3_in_range (i k : Z) :
  0 <= i -> 0 <= k -> 3 * i + k <= INT_MAX -> index3 i k = Some (3 * i + k).
Proof.
  intros Hi Hk Hr. unfold index3.
  rewrite int_mul_in_range by (unfold INT_MIN; lia). simpl.
  rewrite int_add_in_range by (unfold INT_MIN; lia). f_equal. lia.
Qed.

(** ** Buffers *)

Lemma load_Some (buf : list uint8_t) (idx : Z) (v : uint8_t) :
  load buf idx = Some v -> 0 <= idx /\ buf !! Z.to_nat idx = Some v.
Proof. unfold load. destruct (Z.leb_spec 0 idx); [done | discriminate]. Qed.

Lemma store_Some (buf buf' : list uint8_t) (idx : Z) (v : uint8_t) :
  store buf idx v = Some buf' ->
  0 <= idx < Z.of_nat (length buf) /\ buf' = <[Z.to_nat idx := v]> buf.
Proof.
  unfold store. destruct (Z.leb_spec 0 idx), (Z.ltb_spec idx (Z.of_nat (length buf)));
    simpl; intros [= <-] || discriminate. split; [lia | done].
Qed.

Lemma load_in_range (buf : list uint8_t) (idx : Z) :
  0 <= idx < Z.of_nat (length buf) -> is_Some (load buf idx).
Proof.
  intros H. unfold load. destruct (Z.leb_spec 0 idx); [|lia].
  apply lookup_lt_is_Some. lia.
Qed.

Lemma store_in_range (buf : list uint8_t) (idx : Z) (v : uint8_t) :
  0 <= idx < Z.of_nat (length buf) -> store buf idx v = Some (<[Z.to_nat idx := v]> buf).
Proof.
  intros H. unfold store.
  destruct (Z.leb_spec 0 idx), (Z.ltb_spec idx (Z.of_nat (length buf))); (done || lia).
Qed.

(** ** The conversion loop *)

Example swap_loop_two_pixels :
  swap_loop 2 0 [Byte.x01; Byte.x02; Byte.x03; Byte.x04; Byte.x05; Byte.x06]
    (replicate 6 Byte.x00)
  = Some [Byte.x03; Byte.x02; Byte.x01; Byte.x06; Byte.x05; Byte.x04].
Proof. reflexivity. Qed.

Example swap_loop_short_source :
  swap_loop 2 0 [Byte.x01; Byte.x02; Byte.x03; Byte.x04] (replicate 6 Byte.x00) = None.
Proof. reflexivity. Qed.

Example swap_loop_short_block :
  swap_loop 1 0 [Byte.x01; Byte.x02; Byte.x03] (replicate 2 Byte.x00) = None.
Proof. reflexivity. Qed.


(** One iteration, inverted. *)
Lemma swap_loop_step (n : nat) (i : Z) (src dst out : list uint8_t) :
  0 <= i ->
  swap_loop (S n) i src dst = Some out ->
  exists b g r,
    src !! Z.to_nat (3 * i + 2) = Some b /\
    src !! Z.to_nat (3 * i + 1) = Some g /\
    src !! Z.to_nat (3 * i) = Some r /\
    3 * i + 2 < Z.of_nat (length dst) /\
    swap_loop n (i + 1) src
      (<[Z.to_nat (3 * i + 2) := r]>
         (<[Z.to_nat (3 * i + 1) := g]> (<[Z.to_nat (3 * i) := b]> dst))) = Some out.
Proof.
  intros Hi H. simpl in H.
  apply bind_Some in H as (j0 & E0%index3_Some & H).
  apply bind_Some in H as (j2 & E2%index3_Some & H).
  apply bind_Some in H as (b & [_ Lb]%load_Some & H).
  apply bind_Some in H as (d1 & [R1 ->]%store_Some & H).
  apply bind_Some in H as (j1 & E1%index3_Some & H).
  apply bind_Some in H as (j1' & E1'%index3_Some & H).
  apply bind_Some in H as (g & [_ Lg]%load_Some & H).
  apply bind_Some in H as (d2 & [R2 ->]%store_Some & H).
  apply bind_Some in H as (j2' & E2'%index3_Some & H).
  apply bind_Some in H as (j0' & E0'%index3_Some & H).
  apply bind_Some in H as (r & [_ Lr]%load_Some & H).
  apply bind_Some in H as (d3 & [R3 ->]%store_Some & H).
  apply bind_Some in H as (i' & ->%int_add_Some & H).
  subst.
  rewrite !length_insert in R3. rewrite Z.add_0_r in *.
  exists b, g, r. repeat split; try done. lia.
Qed.

Lemma swap_loop_length (n : nat) : forall (i : Z) (src dst out : list uint8_t),
  0 <= i -> swap_loop n i src dst = Some out -> length out = length dst.
Proof.
  induction n as [|n IH]; intros i src dst out Hi H.
  - by injection H as <-.
  - apply swap_loop_step in H as (b & g & r & _ & _ & _ & _ & H); [|done].
    apply IH in H; [|lia]. by rewrite H, !length_insert.
Qed.

(** Below the pixels still to convert, the loop leaves the block alone. *)
Lemma swap_loop_below (n : nat) : forall (i : Z) (src dst out : list uint8_t) (k : nat),
  0 <= i -> swap_loop n i src dst = Some out ->
  Z.of_nat k < 3 * i -> out !! k = dst !! k.
Proof.
  induction n as [|n IH]; intros i src dst out k Hi H Hk.
  - by injection H as <-.
  - apply swap_loop_step in H as (b & g & r & _ & _ & _ & _ & H); [|done].
    rewrite (IH (i + 1) _ _ _ k) by (done || lia).
    rewrite !list_lookup_insert_ne by lia. done.
Qed.

(** Every pixel the loop visits is written with the channels of the
    source pixel in reverse order. *)
Lemma swap_loop_pixels (n : nat) : forall (i : Z) (src dst out : list uint8_t) (j : nat),
  0 <= i -> swap_loop n i src dst = Some out ->
  i <= Z.of_nat j < i + Z.of_nat n ->
  exists c0 c1 c2,
    pixel src j = Some (c0, c1, c2) /\ pixel out j = Some (c2, c1, c0).
Proof.
  induction n as [|n IH]; intros i src dst out j Hi H Hj; [lia|].
  apply swap_loop_step in H as (b & g & r & Hb & Hg & Hr & Hlen & H); [|done].
  destruct (decide (Z.of_nat j = i)) as [Heq|Hne].
  - exists r, g, b.
    replace (Z.to_nat (3 * i + 2)) with (3 * j + 2)%nat in * by lia.
    replace (Z.to_nat (3 * i + 1)) with (3 * j + 1)%nat in * by lia.
    replace (Z.to_nat (3 * i)) with (3 * j)%nat in * by lia.
    unfold pixel. rewrite Hb, Hg, Hr. split; [done|].
    assert (Hlow : forall k : nat, Z.of_nat k < 3 * (i + 1) ->
              out !! k = (<[(3 * j + 2)%nat := r]>
                (<[(3 * j + 1)%nat := g]> (<[(3 * j)%nat := b]> dst))) !! k)
      by (intros k Hk; apply (swap_loop_below n (i + 1) src); (done || lia)).
    assert (H0 : out !! (3 * j)%nat = Some b).
    { rewrite Hlow by lia. rewrite !list_lookup_insert_ne by lia.
      apply list_lookup_insert_eq. lia. }
    assert (H1 : out !! (3 * j + 1)%nat = Some g).
    { rewrite Hlow by lia. rewrite list_lookup_insert_ne by lia.
      apply list_lookup_insert_eq. rewrite length_insert. lia. }
    assert (H2 : out !! (3 * j + 2)%nat = Some r).
    { rewrite Hlow by lia. apply list_lookup_insert_eq. rewrite !length_insert. lia. }
    by rewrite H0, H1, H2.
  - eapply (IH (i + 1)); [|exact H|]; lia.
Qed.

(** The loop has a result when both buffers hold the pixels it visits. *)
Lemma swap_loop_total (n : nat) : forall (i : Z) (src dst : list uint8_t),
  0 <= i ->
  3 * (i + Z.of_nat n) <= Z.of_nat (length src) ->
  3 * (i + Z.of_nat n) <= Z.of_nat (length dst) ->
  3 * (i + Z.of_nat n) <= INT_MAX ->
  is_Some (swap_loop n i src dst).
Proof.
  induction n as [|n IH]; intros i src dst Hi Hs Hd Hm; [by eexists|].
  simpl.
  rewrite !index3_in_range by lia. simpl.
  destruct (load_in_range src (3 * i + 2) ltac:(lia)) as [b ->]. simpl.
  rewrite store_in_range by lia. simpl.
  destruct (load_in_range src (3 * i + 1) ltac:(lia)) as [g ->]. simpl.
  rewrite store_in_range by (rewrite length_insert; lia). simpl.
  destruct (load_in_range src (3 * i + 0) ltac:(lia)) as [r ->]. simpl.
  rewrite store_in_range by (rewrite !length_insert; lia). simpl.
  rewrite int_add_in_range by (unfold INT_MIN, INT_MAX in *; lia). simpl.
  apply IH; rewrite ?length_insert; lia.
Qed.

(** ** Running the wrappers *)

Ltac unfold_ops :=
  unfold thumbnail_op, preview_op,
    Android.get_preview, Android.get_preview_from_buffer, Android.get_thumbnail,
    Android.get_thumbnail_from_buffer, Android.process_preview, Android.process_thumbnail,
    Windows.get_preview, Windows.get_thumbnail,
    scoped, open_file, open_file_w, open_buffer, open, unpack_thumb, dcraw_make_mem_thumb,
    unpack, dcraw_process, dcraw_make_mem_image, dcraw_clear_mem, recycle, set_params,
    LibRaw_ctor, LibRaw_dtor, LOGD, LOGE, event, get_rawproc, put_rawproc, lift,
    mbind, M_bind, mret, M_ret,
    preview_params, fallback_params, converted, malloc_request, embedded, thumb_attempt in *.

(** The goal [exists st', run = Some (r, st') /\ leaves st st' h evs] once
    the run has been computed. *)
Ltac finish := eexists; (split; [reflexivity|]); repeat split; cbn; rewrite ?insert_insert_eq; done.

Lemma new_ptr_not_null (h : gmap N (list uint8_t)) : (new_ptr h =? nullptr)%N = false.
Proof.
  apply N.eqb_neq. unfold new_ptr.
  pose proof (is_fresh ({[nullptr]} ∪ dom h)) as Hf. set_solver.
Qed.

Lemma new_ptr_fresh (h : gmap N (list uint8_t)) : h !! new_ptr h = None.
Proof.
  apply not_elem_of_dom. unfold new_ptr.
  pose proof (is_fresh ({[nullptr]} ∪ dom h)) as Hf. set_solver.
Qed.

Lemma quiet_subset (e : Event) (tr : list Event) : In e (quiet tr) -> In e tr.
Proof. unfold quiet. intros H. by apply filter_In in H as [H _]. Qed.

(** The embedded-thumbnail attempt came to nothing: both ways. *)
Ltac no_thumbnail He :=
  unfold embedded in He;
  match type of He with
  | (if ?c =? _ then _ else _) = None =>
      let Ht := fresh "Ht" in destruct (c =? LIBRAW_SUCCESS) eqn:Ht
  end.

(** Transfers the outcome [Hb] of a branch lemma to the run [H]. *)
Ltac same_run H Hb :=
  let st'' := fresh "st''" in
  let Hrun := fresh "Hrun" in
  let Hh := fresh "Hh" in
  let Hr := fresh "Hr" in
  let Hq := fresh "Hq" in
  destruct Hb as (st'' & Hrun & Hh & Hr & Hq);
  rewrite Hrun in H; injection H as <- <-.

(** An event of the call is in the trace it leaves. *)
Ltac in_trace Hq := apply quiet_subset; rewrite Hq; cbn; auto 12.

Section Runs.
Variable codec : Codec.
Variable alloc : Allocator.

Lemma malloc_fails (n : Z) (st : State) :
  alloc_ok alloc (to_size_t (size_t_bits alloc) n) = false ->
  malloc alloc n st
  = Some (nullptr, emit (EvMalloc (to_size_t (size_t_bits alloc) n) nullptr) st).
Proof. intros H. unfold malloc. by rewrite H. Qed.

Lemma malloc_succeeds (n : Z) (st : State) :
  alloc_ok alloc (to_size_t (size_t_bits alloc) n) = true ->
  malloc alloc n st
  = Some (new_ptr (heap st),
          emit (EvMalloc (to_size_t (size_t_bits alloc) n) (new_ptr (heap st)))
            (with_heap (<[new_ptr (heap st) := new_block alloc n]> (heap st)) st)).
Proof. intros H. unfold malloc. by rewrite H. Qed.

(** *** Preview operations, branch by branch *)

Lemma preview_open_fails (e : Entry) (half_size : Z) (st : State) :
  open_ret codec (source_of e) <> LIBRAW_SUCCESS ->
  exists st',
    preview_op codec alloc e half_size st = Some (ImageResult.zero, st') /\
    leaves st st' (heap st)
      [EvDestroy; EvOpen (source_of e) (open_ret codec (source_of e)); EvCreate].
Proof.
  intros Ho%Z.eqb_neq.
  destruct e; unfold_ops; cbn in *; rewrite Ho; cbn; finish.
Qed.

Lemma preview_unpack_fails (e : Entry) (half_size : Z) (st : State) :
  let p := preview_params codec half_size in
  open_ret codec (source_of e) = LIBRAW_SUCCESS ->
  unpack_ret codec (source_of e) p <> LIBRAW_SUCCESS ->
  exists st',
    preview_op codec alloc e half_size st = Some (ImageResult.zero, st') /\
    leaves st st' (heap st)
      [EvDestroy; EvRecycle; EvUnpack p (unpack_ret codec (source_of e) p);
       EvOpen (source_of e) LIBRAW_SUCCESS; EvCreate].
Proof.
  intros p Ho Hu%Z.eqb_neq. subst p.
  destruct e; unfold_ops; cbn in *; rewrite Ho; cbn; rewrite Hu; cbn; finish.
Qed.

Lemma preview_process_fails (e : Entry) (half_size : Z) (st : State) :
  let p := preview_params codec half_size in
  open_ret codec (source_of e) = LIBRAW_SUCCESS ->
  unpack_ret codec (source_of e) p = LIBRAW_SUCCESS ->
  dcraw_process_ret codec (source_of e) p <> LIBRAW_SUCCESS ->
  exists st',
    preview_op codec alloc e half_size st = Some (ImageResult.zero, st') /\
    leaves st st' (heap st)
      [EvDestroy; EvRecycle; EvProcess p (dcraw_process_ret codec (source_of e) p);
       EvUnpack p LIBRAW_SUCCESS; EvOpen (source_of e) LIBRAW_SUCCESS; EvCreate].
Proof.
  intros p Ho Hu Hp%Z.eqb_neq. subst p.
  destruct e; unfold_ops; cbn in *; rewrite Ho; cbn; rewrite Hu; cbn; rewrite Hp; cbn;
    finish.
Qed.

Lemma preview_no_image (e : Entry) (half_size : Z) (st : State) :
  let p := preview_params codec half_size in
  open_ret codec (source_of e) = LIBRAW_SUCCESS ->
  unpack_ret codec (source_of e) p = LIBRAW_SUCCESS ->
  dcraw_process_ret codec (source_of e) p = LIBRAW_SUCCESS ->
  mem_image codec (source_of e) p = None ->
  exists st',
    preview_op codec alloc e half_size st = Some (ImageResult.zero, st') /\
    leaves st st' (heap st)
      [EvDestroy; EvRecycle; EvMakeMemImage p false; EvProcess p LIBRAW_SUCCESS;
       EvUnpack p LIBRAW_SUCCESS; EvOpen (source_of e) LIBRAW_SUCCESS; EvCreate].
Proof.
  intros p Ho Hu Hp Hi. subst p.
  destruct e; unfold_ops; cbn in *; rewrite Ho; cbn; rewrite Hu; cbn; rewrite Hp; cbn;
    rewrite Hi; cbn; finish.
Qed.

Lemma preview_alloc_fails (e : Entry) (half_size : Z) (st : State) (image : Image.t) :
  let p := preview_params codec half_size in
  open_ret codec (source_of e) = LIBRAW_SUCCESS ->
  unpack_ret codec (source_of e) p = LIBRAW_SUCCESS ->
  dcraw_process_ret codec (source_of e) p = LIBRAW_SUCCESS ->
  mem_image codec (source_of e) p = Some image ->
  alloc_ok alloc (malloc_request alloc image) = false ->
  exists st',
    preview_op codec alloc e half_size st = Some (preview_result image nullptr, st') /\
    leaves st st' (heap st)
      [EvDestroy; EvRecycle; EvClearMem; EvMalloc (malloc_request alloc image) nullptr;
       EvMakeMemImage p true; EvProcess p LIBRAW_SUCCESS; EvUnpack p LIBRAW_SUCCESS;
       EvOpen (source_of e) LIBRAW_SUCCESS; EvCreate].
Proof.
  intros p Ho Hu Hp Hi Ha. subst p.
  destruct e; unfold_ops; cbn in *; rewrite Ho; cbn; rewrite Hu; cbn; rewrite Hp; cbn;
    rewrite Hi; cbn; rewrite malloc_fails by done; cbn; finish.
Qed.

Lemma preview_image_ok (e : Entry) (half_size : Z) (st : State) (image : Image.t) :
  let p := preview_params codec half_size in
  let data := new_ptr (heap st) in
  open_ret codec (source_of e) = LIBRAW_SUCCESS ->
  unpack_ret codec (source_of e) p = LIBRAW_SUCCESS ->
  dcraw_process_ret codec (source_of e) p = LIBRAW_SUCCESS ->
  mem_image codec (source_of e) p = Some image ->
  alloc_ok alloc (malloc_request alloc image) = true ->
  match converted image (new_block alloc (to_int (Image.data_size image))) with
  | Some blk =>
      exists st',
        preview_op codec alloc e half_size st = Some (preview_result image data, st') /\
        leaves st st' (<[data := blk]> (heap st))
          [EvDestroy; EvRecycle; EvClearMem; EvMalloc (malloc_request alloc image) data;
           EvMakeMemImage p true; EvProcess p LIBRAW_SUCCESS; EvUnpack p LIBRAW_SUCCESS;
           EvOpen (source_of e) LIBRAW_SUCCESS; EvCreate]
  | None => preview_op codec alloc e half_size st = None
  end.
Proof.
  intros p data Ho Hu Hp Hi Ha. subst p data.
  destruct e; unfold_ops; cbn in *; rewrite Ho; cbn; rewrite Hu; cbn; rewrite Hp; cbn;
    rewrite Hi; cbn; rewrite malloc_succeeds by done; cbn;
    rewrite new_ptr_not_null; cbn.
  all: destruct (int_mul _ _) as [tp|]; cbn; [|done].
  all: unfold swap_channels; cbn; rewrite lookup_insert_eq;
    fold (new_block alloc (to_int (Image.data_size image))).
  all: destruct (swap_loop _ _ _ _) as [blk|]; cbn; [|done].
  all: finish.
Qed.

(** *** Thumbnail operations, branch by branch *)

Lemma thumbnail_open_fails (e : Entry) (st : State) :
  open_ret codec (source_of e) <> LIBRAW_SUCCESS ->
  exists st',
    thumbnail_op codec alloc e st = Some (ThumbnailResult.zero, st') /\
    leaves st st' (heap st)
      [EvDestroy; EvOpen (source_of e) (open_ret codec (source_of e)); EvCreate].
Proof.
  intros Ho%Z.eqb_neq.
  destruct e; unfold_ops; cbn in *; rewrite Ho; cbn; finish.
Qed.

Lemma thumbnail_embedded_alloc_fails (e : Entry) (st : State) (thumb : Image.t) :
  open_ret codec (source_of e) = LIBRAW_SUCCESS ->
  embedded codec (source_of e) = Some thumb ->
  alloc_ok alloc (malloc_request alloc thumb) = false ->
  exists st',
    thumbnail_op codec alloc e st = Some (embedded_result thumb nullptr, st') /\
    leaves st st' (heap st)
      [EvDestroy; EvRecycle; EvClearMem; EvMalloc (malloc_request alloc thumb) nullptr;
       EvMakeMemThumb true; EvUnpackThumb LIBRAW_SUCCESS;
       EvOpen (source_of e) LIBRAW_SUCCESS; EvCreate].
Proof.
  intros Ho He Ha. unfold embedded in He.
  destruct (Z.eqb_spec (unpack_thumb_ret codec (source_of e)) LIBRAW_SUCCESS) as [Ht|];
    [|done].
  destruct e; unfold_ops; cbn in *; rewrite Ho; cbn; rewrite Ht; cbn; rewrite He; cbn;
    rewrite malloc_fails by done; cbn; unfold embedded_result; cbn;
    destruct (Image.type thumb =? 1), (Image.type thumb =? 2); finish.
Qed.

Lemma thumbnail_embedded_ok (e : Entry) (st : State) (thumb : Image.t) :
  let data := new_ptr (heap st) in
  let cnt := Z.to_nat (malloc_request alloc thumb) in
  open_ret codec (source_of e) = LIBRAW_SUCCESS ->
  embedded codec (source_of e) = Some thumb ->
  alloc_ok alloc (malloc_request alloc thumb) = true ->
  if (cnt <=? length (Image.data thumb))%nat then
    exists st',
      thumbnail_op codec alloc e st = Some (embedded_result thumb data, st') /\
      leaves st st' (<[data := take cnt (Image.data thumb)]> (heap st))
        [EvDestroy; EvRecycle; EvClearMem; EvMalloc (malloc_request alloc thumb) data;
         EvMakeMemThumb true; EvUnpackThumb LIBRAW_SUCCESS;
         EvOpen (source_of e) LIBRAW_SUCCESS; EvCreate]
  else thumbnail_op codec alloc e st = None.
Proof.
  intros data cnt Ho He Ha. subst data cnt. unfold embedded in He.
  destruct (Z.eqb_spec (unpack_thumb_ret codec (source_of e)) LIBRAW_SUCCESS) as [Ht|];
    [|done].
  destruct e; unfold_ops; cbn in *; rewrite Ho; cbn; rewrite Ht; cbn; rewrite He; cbn;
    rewrite malloc_succeeds by done; cbn; rewrite new_ptr_not_null; cbn;
    unfold memcpy; cbn; rewrite lookup_insert_eq; unfold new_block;
    rewrite length_replicate, Nat.leb_refl, andb_true_r;
    (destruct (_ <=? _)%nat; cbn; [|done]);
    rewrite drop_replicate, Nat.sub_diag, app_nil_r; unfold embedded_result; cbn;
    destruct (Image.type thumb =? 1), (Image.type thumb =? 2); finish.
Qed.

Lemma fallback_unpack_fails (e : Entry) (st : State) :
  let p := fallback_params codec in
  open_ret codec (source_of e) = LIBRAW_SUCCESS ->
  embedded codec (source_of e) = None ->
  unpack_ret codec (source_of e) p <> LIBRAW_SUCCESS ->
  exists st',
    thumbnail_op codec alloc e st = Some (ThumbnailResult.zero, st') /\
    leaves st st' (heap st)
      ([EvDestroy; EvRecycle; EvUnpack p (unpack_ret codec (source_of e) p)]
         ++ thumb_attempt codec (source_of e)
         ++ [EvOpen (source_of e) LIBRAW_SUCCESS; EvCreate]).
Proof.
  intros p Ho He Hu%Z.eqb_neq. subst p. no_thumbnail He.
  all: destruct e; unfold_ops; cbn in *; rewrite Ho; cbn; rewrite Ht; cbn;
    rewrite ?He; cbn; rewrite Hu; cbn; finish.
Qed.

Lemma fallback_process_fails (e : Entry) (st : State) :
  let p := fallback_params codec in
  open_ret codec (source_of e) = LIBRAW_SUCCESS ->
  embedded codec (source_of e) = None ->
  unpack_ret codec (source_of e) p = LIBRAW_SUCCESS ->
  dcraw_process_ret codec (source_of e) p <> LIBRAW_SUCCESS ->
  exists st',
    thumbnail_op codec alloc e st = Some (ThumbnailResult.zero, st') /\
    leaves st st' (heap st)
      ([EvDestroy; EvRecycle; EvProcess p (dcraw_process_ret codec (source_of e) p);
        EvUnpack p LIBRAW_SUCCESS]
         ++ thumb_attempt codec (source_of e)
         ++ [EvOpen (source_of e) LIBRAW_SUCCESS; EvCreate]).
Proof.
  intros p Ho He Hu Hp%Z.eqb_neq. subst p. no_thumbnail He.
  all: destruct e; unfold_ops; cbn in *; rewrite Ho; cbn; rewrite Ht; cbn;
    rewrite ?He; cbn; rewrite Hu; cbn; rewrite Hp; cbn; finish.
Qed.

Lemma fallback_no_image (e : Entry) (st : State) :
  let p := fallback_params codec in
  open_ret codec (source_of e) = LIBRAW_SUCCESS ->
  embedded codec (source_of e) = None ->
  unpack_ret codec (source_of e) p = LIBRAW_SUCCESS ->
  dcraw_process_ret codec (source_of e) p = LIBRAW_SUCCESS ->
  mem_image codec (source_of e) p = None ->
  exists st',
    thumbnail_op codec alloc e st = Some (ThumbnailResult.zero, st') /\
    leaves st st' (heap st)
      ([EvDestroy; EvRecycle; EvMakeMemImage p false; EvProcess p LIBRAW_SUCCESS;
        EvUnpack p LIBRAW_SUCCESS]
         ++ thumb_attempt codec (source_of e)
         ++ [EvOpen (source_of e) LIBRAW_SUCCESS; EvCreate]).
Proof.
  intros p Ho He Hu Hp Hi. subst p. no_thumbnail He.
  all: destruct e; unfold_ops; cbn in *; rewrite Ho; cbn; rewrite Ht; cbn;
    rewrite ?He; cbn; rewrite Hu; cbn; rewrite Hp; cbn; rewrite Hi; cbn; finish.
Qed.

Lemma fallback_alloc_fails (e : Entry) (st : State) (image : Image.t) :
  let p := fallback_params codec in
  open_ret codec (source_of e) = LIBRAW_SUCCESS ->
  embedded codec (source_of e) = None ->
  unpack_ret codec (source_of e) p = LIBRAW_SUCCESS ->
  dcraw_process_ret codec (source_of e) p = LIBRAW_SUCCESS ->
  mem_image codec (source_of e) p = Some image ->
  alloc_ok alloc (malloc_request alloc image) = false ->
  exists st',
    thumbnail_op codec alloc e st = Some (fallback_result image nullptr, st') /\
    leaves st st' (heap st)
      ([EvDestroy; EvRecycle; EvClearMem; EvMalloc (malloc_request alloc image) nullptr;
        EvMakeMemImage p true; EvProcess p LIBRAW_SUCCESS; EvUnpack p LIBRAW_SUCCESS]
         ++ thumb_attempt codec (source_of e)
         ++ [EvOpen (source_of e) LIBRAW_SUCCESS; EvCreate]).
Proof.
  intros p Ho He Hu Hp Hi Ha. subst p. no_thumbnail He.
  all: destruct e; unfold_ops; cbn in *; rewrite Ho; cbn; rewrite Ht; cbn;
    rewrite ?He; cbn; rewrite Hu; cbn; rewrite Hp; cbn; rewrite Hi; cbn;
    rewrite malloc_fails by done; cbn; finish.
Qed.

Lemma fallback_image_ok (e : Entry) (st : State) (image : Image.t) :
  let p := fallback_params codec in
  let data := new_ptr (heap st) in
  open_ret codec (source_of e) = LIBRAW_SUCCESS ->
  embedded codec (source_of e) = None ->
  unpack_ret codec (source_of e) p = LIBRAW_SUCCESS ->
  dcraw_process_ret codec (source_of e) p = LIBRAW_SUCCESS ->
  mem_image codec (source_of e) p = Some image ->
  alloc_ok alloc (malloc_request alloc image) = true ->
  match converted image (new_block alloc (to_int (Image.data_size image))) with
  | Some blk =>
      exists st',
        thumbnail_op codec alloc e st = Some (fallback_result image data, st') /\
        leaves st st' (<[data := blk]> (heap st))
          ([EvDestroy; EvRecycle; EvClearMem; EvMalloc (malloc_request alloc image) data;
            EvMakeMemImage p true; EvProcess p LIBRAW_SUCCESS; EvUnpack p LIBRAW_SUCCESS]
             ++ thumb_attempt codec (source_of e)
             ++ [EvOpen (source_of e) LIBRAW_SUCCESS; EvCreate])
  | None => thumbnail_op codec alloc e st = None
  end.
Proof.
  intros p data Ho He Hu Hp Hi Ha. subst p data. no_thumbnail He.
  all: destruct e; unfold_ops; cbn in *; rewrite Ho; cbn; rewrite Ht; cbn;
    rewrite ?He; cbn; rewrite Hu; cbn; rewrite Hp; cbn; rewrite Hi; cbn;
    rewrite malloc_succeeds by done; cbn; rewrite new_ptr_not_null; cbn.
  all: destruct (int_mul _ _) as [tp|]; cbn; [|done].
  all: unfold swap_channels; cbn; rewrite lookup_insert_eq;
    fold (new_block alloc (to_int (Image.data_size image))).
  all: destruct (swap_loop _ _ _ _) as [blk|]; cbn; [|done].
  all: finish.
Qed.

(** *** Every returning run is one of the branches *)

Lemma preview_cases (e : Entry) (half_size : Z) (st : State) (r : ImageResult.t)
    (st' : State) :
  preview_op codec alloc e half_size st = Some (r, st') ->
  exists evs,
    rawproc st' = None /\ quiet (trace st') = evs ++ quiet (trace st) /\
    released evs = true /\
    match rendered codec (source_of e) (preview_params codec half_size) with
    | None => r = ImageResult.zero /\ heap st' = heap st
    | Some image =>
        if alloc_ok alloc (malloc_request alloc image) then
          r = preview_result image (new_ptr (heap st)) /\
          exists blk,
            converted image (new_block alloc (to_int (Image.data_size image))) = Some blk /\
            heap st' = <[new_ptr (heap st) := blk]> (heap st)
        else r = preview_result image nullptr /\ heap st' = heap st
    end.
Proof.
  intros H. unfold rendered.
  destruct (Z.eqb_spec (open_ret codec (source_of e)) LIBRAW_SUCCESS) as [Ho|Ho].
  2: { same_run H (preview_open_fails e half_size st Ho).
       eexists; repeat split; try eassumption. cbn. by apply Z.eqb_neq in Ho as ->. }
  destruct (Z.eqb_spec (unpack_ret codec (source_of e) (preview_params codec half_size))
              LIBRAW_SUCCESS) as [Hu|Hu].
  2: { same_run H (preview_unpack_fails e half_size st Ho Hu).
       eexists; repeat split; try eassumption. done. }
  destruct (Z.eqb_spec (dcraw_process_ret codec (source_of e)
              (preview_params codec half_size)) LIBRAW_SUCCESS) as [Hp|Hp].
  2: { same_run H (preview_process_fails e half_size st Ho Hu Hp).
       eexists; repeat split; try eassumption. done. }
  destruct (mem_image codec (source_of e) (preview_params codec half_size))
    as [image|] eqn:Hi.
  2: { same_run H (preview_no_image e half_size st Ho Hu Hp Hi).
       eexists; repeat split; try eassumption. done. }
  destruct (alloc_ok alloc (malloc_request alloc image)) eqn:Ha.
  2: { same_run H (preview_alloc_fails e half_size st image Ho Hu Hp Hi Ha).
       eexists; repeat split; try eassumption. done. }
  pose proof (preview_image_ok e half_size st image Ho Hu Hp Hi Ha) as Hb.
  cbn zeta in Hb.
  destruct (converted image _) as [blk|]; [|congruence].
  same_run H Hb. eexists; repeat split; try eassumption; [done|]. by exists blk.
Qed.

Lemma thumbnail_cases (e : Entry) (st : State) (r : ThumbnailResult.t) (st' : State) :
  thumbnail_op codec alloc e st = Some (r, st') ->
  exists evs,
    rawproc st' = None /\ quiet (trace st') = evs ++ quiet (trace st) /\
    released evs = true /\
    if negb (open_ret codec (source_of e) =? LIBRAW_SUCCESS) then
      r = ThumbnailResult.zero /\ heap st' = heap st
    else
      match embedded codec (source_of e) with
      | Some thumb =>
          if alloc_ok alloc (malloc_request alloc thumb) then
            r = embedded_result thumb (new_ptr (heap st)) /\
            (Z.to_nat (malloc_request alloc thumb) <= length (Image.data thumb))%nat /\
            heap st' = <[new_ptr (heap st) :=
                           take (Z.to_nat (malloc_request alloc thumb)) (Image.data thumb)]>
                         (heap st)
          else r = embedded_result thumb nullptr /\ heap st' = heap st
      | None =>
          match rendered codec (source_of e) (fallback_params codec) with
          | None => r = ThumbnailResult.zero /\ heap st' = heap st
          | Some image =>
              if alloc_ok alloc (malloc_request alloc image) then
                r = fallback_result image (new_ptr (heap st)) /\
                exists blk,
                  converted image (new_block alloc (to_int (Image.data_size image)))
                  = Some blk /\
                  heap st' = <[new_ptr (heap st) := blk]> (heap st)
              else r = fallback_result image nullptr /\ heap st' = heap st
          end
      end.
Proof.
  intros H. unfold rendered.
  destruct (Z.eqb_spec (open_ret codec (source_of e)) LIBRAW_SUCCESS) as [Ho|Ho]; cbn.
  2: { same_run H (thumbnail_open_fails e st Ho).
       eexists; repeat split; try eassumption. cbn. by apply Z.eqb_neq in Ho as ->. }
  destruct (embedded codec (source_of e)) as [thumb|] eqn:He.
  { destruct (alloc_ok alloc (malloc_request alloc thumb)) eqn:Ha.
    2: { same_run H (thumbnail_embedded_alloc_fails e st thumb Ho He Ha).
         eexists; repeat split; try eassumption. done. }
    pose proof (thumbnail_embedded_ok e st thumb Ho He Ha) as Hb. cbn zeta in Hb.
    destruct (Nat.leb_spec (Z.to_nat (malloc_request alloc thumb))
                (length (Image.data thumb))); [|congruence].
    same_run H Hb. eexists; repeat split; try eassumption; done. }
  destruct (Z.eqb_spec (unpack_ret codec (source_of e) (fallback_params codec))
              LIBRAW_SUCCESS) as [Hu|Hu].
  2: { same_run H (fallback_unpack_fails e st Ho He Hu).
       eexists; repeat split; try eassumption. done. }
  destruct (Z.eqb_spec (dcraw_process_ret codec (source_of e) (fallback_params codec))
              LIBRAW_SUCCESS) as [Hp|Hp].
  2: { same_run H (fallback_process_fails e st Ho He Hu Hp).
       eexists; repeat split; try eassumption. done. }
  destruct (mem_image codec (source_of e) (fallback_params codec)) as [image|] eqn:Hi.
  2: { same_run H (fallback_no_image e st Ho He Hu Hp Hi).
       eexists; repeat split; try eassumption. done. }
  destruct (alloc_ok alloc (malloc_request alloc image)) eqn:Ha.
  2: { same_run H (fallback_alloc_fails e st image Ho He Hu Hp Hi Ha).
       eexists; repeat split; try eassumption. done. }
  pose proof (fallback_image_ok e st image Ho He Hu Hp Hi Ha) as Hb. cbn zeta in Hb.
  destruct (converted image _) as [blk|]; [|congruence].
  same_run H Hb. eexists; repeat split; try eassumption; [done|]. by exists blk.
Qed.

(** The fallback of a thumbnail operation reaches [unpack] under
    [fallback_params]. *)
Lemma fallback_attempted (e : Entry) (st : State) (r : ThumbnailResult.t) (st' : State) :
  let p := fallback_params codec in
  open_ret codec (source_of e) = LIBRAW_SUCCESS ->
  embedded codec (source_of e) = None ->
  thumbnail_op codec alloc e st = Some (r, st') ->
  In (EvUnpack p (unpack_ret codec (source_of e) p)) (trace st').
Proof.
  intros p Ho He H. subst p.
  destruct (Z.eqb_spec (unpack_ret codec (source_of e) (fallback_params codec))
              LIBRAW_SUCCESS) as [Hu|Hu].
  2: { same_run H (fallback_unpack_fails e st Ho He Hu). in_trace Hq. }
  rewrite Hu.
  destruct (Z.eqb_spec (dcraw_process_ret codec (source_of e) (fallback_params codec))
              LIBRAW_SUCCESS) as [Hp|Hp].
  2: { same_run H (fallback_process_fails e st Ho He Hu Hp). in_trace Hq. }
  destruct (mem_image codec (source_of e) (fallback_params codec)) as [image|] eqn:Hi.
  2: { same_run H (fallback_no_image e st Ho He Hu Hp Hi). in_trace Hq. }
  destruct (alloc_ok alloc (malloc_request alloc image)) eqn:Ha.
  2: { same_run H (fallback_alloc_fails e st image Ho He Hu Hp Hi Ha). in_trace Hq. }
  pose proof (fallback_image_ok e st image Ho He Hu Hp Hi Ha) as Hb. cbn zeta in Hb.
  destruct (converted image _) as [blk|]; [|congruence].
  same_run H Hb. in_trace Hq.
Qed.
End Runs.

(** ** The conversion of a well-formed image *)

Lemma converted_pixels (image : Image.t) (blk out : list uint8_t) (i : nat) :
  converted image blk = Some out ->
  Z.of_nat i < Image.width image * Image.height image ->
  exists c0 c1 c2,
    pixel (Image.data image) i = Some (c0, c1, c2) /\ pixel out i = Some (c2, c1, c0).
Proof.
  unfold converted. intros H Hi.
  apply bind_Some in H as (tp & [-> _]%int_mul_Some & H).
  eapply swap_loop_pixels; [|exact H|]; lia.
Qed.

Lemma converted_total (alloc : Allocator) (image : Image.t) :
  alloc_wf alloc -> rgb8 image ->
  is_Some (converted image (new_block alloc (to_int (Image.data_size image)))).
Proof.
  intros Ha (Hw & Hh & _ & _ & Hds & Hlen & Hmax). unfold converted.
  assert (0 <= Image.width image * Image.height image) by lia.
  rewrite int_mul_in_range by (unfold INT_MIN; lia). simpl.
  apply swap_loop_total; [lia|lia| |lia].
  unfold new_block. rewrite length_replicate.
  rewrite to_int_id, to_size_t_id by (done || lia). lia.
Qed.

(** ** The descriptor of an embedded thumbnail, field by field *)

Lemma embedded_result_data (thumb : Image.t) (data : ptr) :
  ThumbnailResult.data (embedded_result thumb data) = data.
Proof. unfold embedded_result. by repeat case_match. Qed.

Lemma embedded_result_size (thumb : Image.t) (data : ptr) :
  ThumbnailResult.size (embedded_result thumb data) = to_int (Image.data_size thumb).
Proof. unfold embedded_result. by repeat case_match. Qed.

Lemma embedded_result_bitmap (thumb : Image.t) (data : ptr) :
  Image.type thumb = LIBRAW_IMAGE_BITMAP ->
  ThumbnailResult.format (embedded_result thumb data) = 1 /\
  ThumbnailResult.width (embedded_result thumb data) = Image.width thumb /\
  ThumbnailResult.height (embedded_result thumb data) = Image.height thumb.
Proof. unfold embedded_result. by intros ->. Qed.

Lemma embedded_result_not_bitmap (thumb : Image.t) (data : ptr) :
  Image.type thumb <> LIBRAW_IMAGE_BITMAP ->
  ThumbnailResult.format (embedded_result thumb data) = 0 /\
  ThumbnailResult.width (embedded_result thumb data) = 0 /\
  ThumbnailResult.height (embedded_result thumb data) = 0.
Proof.
  unfold embedded_result. intros Hne%Z.eqb_neq. rewrite Hne.
  by destruct (Image.type thumb =? LIBRAW_IMAGE_JPEG).
Qed.

Lemma malloc_request_id (alloc : Allocator) (image : Image.t) :
  alloc_wf alloc -> 0 <= Image.data_size image <= INT_MAX ->
  malloc_request alloc image = Image.data_size image.
Proof.
  intros Ha Hds. unfold malloc_request. by rewrite to_int_id, to_size_t_id.
Qed.

(** The embedded thumbnail of a source that opens is handed over as it
    is: the descriptor of the payload, and its bytes in a new block when
    [malloc] succeeds. *)
Lemma embedded_copy (codec : Codec) (alloc : Allocator) (e : Entry) (st : State)
    (thumb : Image.t) :
  alloc_wf alloc ->
  open_ret codec (source_of e) = LIBRAW_SUCCESS ->
  embedded codec (source_of e) = Some thumb ->
  payload_wf thumb ->
  exists data st',
    thumbnail_op codec alloc e st = Some (embedded_result thumb data, st') /\
    if alloc_ok alloc (Image.data_size thumb) then
      data <> nullptr /\ heap st !! data = None /\
      heap st' !! data = Some (Image.data thumb)
    else data = nullptr /\ heap st' = heap st.
Proof.
  intros Hwf Ho He [Hlen Hmax].
  assert (Hreq : malloc_request alloc thumb = Image.data_size thumb)
    by (apply malloc_request_id; [done | lia]).
  destruct (alloc_ok alloc (Image.data_size thumb)) eqn:Ha.
  - pose proof (thumbnail_embedded_ok codec alloc e st thumb Ho He) as Hb.
    cbn zeta in Hb. rewrite Hreq in Hb. specialize (Hb Ha).
    replace (Z.to_nat (Image.data_size thumb)) with (length (Image.data thumb)) in Hb by lia.
    rewrite Nat.leb_refl, firstn_all in Hb.
    destruct Hb as (st' & Hrun & Hh & _).
    exists (new_ptr (heap st)), st'. split; [done|]. split; [|split].
    + apply N.eqb_neq, new_ptr_not_null.
    + apply new_ptr_fresh.
    + rewrite Hh. apply lookup_insert_eq.
  - pose proof (thumbnail_embedded_alloc_fails codec alloc e st thumb Ho He) as Hb.
    rewrite Hreq in Hb. destruct (Hb Ha) as (st' & Hrun & Hh & _).
    by exists nullptr, st'.
Qed.

Lemma fallback_result_fields (image : Image.t) (data : ptr) :
  rgb8 image ->
  ThumbnailResult.format (fallback_result image data) = 1 /\
  ThumbnailResult.size (fallback_result image data)
  = ThumbnailResult.width (fallback_result image data)
    * ThumbnailResult.height (fallback_result image data) * 3 /\
  ThumbnailResult.width (fallback_result image data) = Image.width image /\
  ThumbnailResult.height (fallback_result image data) = Image.height image.
Proof.
  intros (Hw & Hh & _ & _ & Hds & Hlen & Hmax). cbn.
  rewrite to_int_id by lia. done.
Qed.

(** A preview of an 8-bit three-channel image does return, with a buffer
    when [malloc] succeeds. *)
Lemma preview_rgb8_returns (codec : Codec) (alloc : Allocator) (e : Entry) (half_size : Z)
    (st : State) (image : Image.t) :
  alloc_wf alloc ->
  rendered codec (source_of e) (preview_params codec half_size) = Some image ->
  rgb8 image ->
  exists r st',
    preview_op codec alloc e half_size st = Some (r, st') /\
    (alloc_ok alloc (Image.data_size image) = true -> ImageResult.data r <> nullptr).
Proof.
  intros Hwf Hr Hrgb. unfold rendered in Hr.
  destruct (Z.eqb_spec (open_ret codec (source_of e)) LIBRAW_SUCCESS) as [Ho|]; [|done].
  destruct (Z.eqb_spec (unpack_ret codec (source_of e) (preview_params codec half_size))
              LIBRAW_SUCCESS) as [Hu|]; [|done].
  destruct (Z.eqb_spec (dcraw_process_ret codec (source_of e)
              (preview_params codec half_size)) LIBRAW_SUCCESS) as [Hp|]; [|done].
  assert (Hreq : malloc_request alloc image = Image.data_size image).
  { apply malloc_request_id; [done|]. destruct Hrgb as (? & ? & _ & _ & ? & ? & ?). lia. }
  destruct (alloc_ok alloc (malloc_request alloc image)) eqn:Ha.
  - pose proof (preview_image_ok codec alloc e half_size st image Ho Hu Hp Hr Ha) as Hb.
    cbn zeta in Hb.
    destruct (converted_total alloc image Hwf Hrgb) as [blk Hc]. rewrite Hc in Hb.
    destruct Hb as (st' & Hrun & _).
    exists (preview_result image (new_ptr (heap st))), st'. split; [done|].
    intros _. apply N.eqb_neq, new_ptr_not_null.
  - destruct (preview_alloc_fails codec alloc e half_size st image Ho Hu Hp Hr Ha)
      as (st' & Hrun & _).
    exists (preview_result image nullptr), st'. split; [done|].
    rewrite Hreq in Ha. congruence.
Qed.

(** * The properties *)

(** C1. Channel reversal.  Whenever a preview operation, or a thumbnail
    operation on its fallback path (no embedded thumbnail), returns a
    bitmap in a buffer, then for every pixel index [i < width * height]
    the three bytes of the output at offset [3 i] are the bytes of the
    codec's image at offsets [3 i + 2], [3 i + 1], [3 i]: pixel
    [(c0, c1, c2)] becomes [(c2, c1, c0)], whatever the size and content
    of the image. *)
Theorem channel_reversal (codec : Codec) (alloc : Allocator) (e : Entry) (st : State)
    (image : Image.t) :
  (forall (half_size : Z) (r : ImageResult.t) (st' : State),
     preview_op codec alloc e half_size st = Some (r, st') ->
     ImageResult.data r <> nullptr ->
     mem_image codec (source_of e) (preview_params codec half_size) = Some image ->
     exists out,
       heap st' !! ImageResult.data r = Some out /\
       forall i : nat,
         Z.of_nat i < ImageResult.width r * ImageResult.height r ->
         exists c0 c1 c2,
           pixel (Image.data image) i = Some (c0, c1, c2) /\
           pixel out i = Some (c2, c1, c0)) /\
  (forall (r : ThumbnailResult.t) (st' : State),
     thumbnail_op codec alloc e st = Some (r, st') ->
     ThumbnailResult.data r <> nullptr ->
     embedded codec (source_of e) = None ->
     mem_image codec (source_of e) (fallback_params codec) = Some image ->
     exists out,
       heap st' !! ThumbnailResult.data r = Some out /\
       forall i : nat,
         Z.of_nat i < ThumbnailResult.width r * ThumbnailResult.height r ->
         exists c0 c1 c2,
           pixel (Image.data image) i = Some (c0, c1, c2) /\
           pixel out i = Some (c2, c1, c0)).
Proof.
  split.
  - intros half_size r st' H Hdata Hi.
    apply preview_cases in H as (evs & _ & _ & _ & H).
    unfold rendered in H. rewrite Hi in H.
    repeat case_match; simplify_eq; destruct H as [-> H]; try done.
    destruct H as (blk & Hc & ->). exists blk. split.
    + apply lookup_insert_eq.
    + intros i Hlt. by eapply converted_pixels.
  - intros r st' H Hdata He Hi.
    apply thumbnail_cases in H as (evs & _ & _ & _ & H).
    unfold rendered in H. rewrite He, Hi in H.
    repeat case_match; simplify_eq; destruct H as [-> H]; try done.
    destruct H as (blk & Hc & ->). exists blk. split.
    + apply lookup_insert_eq.
    + intros i Hlt. by eapply converted_pixels.
Qed.

Lemma channel_reversal_witness :
  (exists r st',
     preview_op codec_without_thumb alloc_plenty sample_file 1 st_init = Some (r, st') /\
     exists out,
       heap st' !! ImageResult.data r = Some out /\
       forall i : nat,
         Z.of_nat i < ImageResult.width r * ImageResult.height r ->
         exists c0 c1 c2,
           pixel (Image.data half_image) i = Some (c0, c1, c2) /\
           pixel out i = Some (c2, c1, c0)) /\
  (exists r st',
     thumbnail_op codec_without_thumb alloc_plenty sample_wide_file st_init = Some (r, st') /\
     exists out,
       heap st' !! ThumbnailResult.data r = Some out /\
       forall i : nat,
         Z.of_nat i < ThumbnailResult.width r * ThumbnailResult.height r ->
         exists c0 c1 c2,
           pixel (Image.data half_image) i = Some (c0, c1, c2) /\
           pixel out i = Some (c2, c1, c0)).
Proof.
  split.
  - eexists _, _. split; [reflexivity|].
    eapply (proj1 (channel_reversal codec_without_thumb alloc_plenty sample_file st_init
                     half_image) 1);
      [reflexivity | vm_compute; discriminate | reflexivity].
  - eexists _, _. split; [reflexivity|].
    eapply (proj2 (channel_reversal codec_without_thumb alloc_plenty sample_wide_file st_init
                     half_image));
      [reflexivity | vm_compute; discriminate | reflexivity | reflexivity].
Defined.

(** The thumbnail fallback on the images it is written for.  When the
    source opens and the embedded-thumbnail extraction fails, a thumbnail
    operation goes on to full-preview generation under camera white
    balance, half size and 8-bit depth: every run that returns has called
    [unpack] under these parameters.  When the codec then unpacks, renders
    and materialises an 8-bit three-channel image, the operation returns a
    result tagged RawBitmap (format 1) whose byte count is
    [width * height * 3] and whose width and height are those of the
    half-size image the codec rendered. *)
Lemma thumbnail_fallback_rgb8 (codec : Codec) (alloc : Allocator) (e : Entry) (st : State) :
  open_ret codec (source_of e) = LIBRAW_SUCCESS ->
  embedded codec (source_of e) = None ->
  let p := fallback_params codec in
  (Params.use_camera_wb p = 1 /\ Params.half_size p = 1 /\ Params.output_bps p = 8) /\
  (forall (r : ThumbnailResult.t) (st' : State),
     thumbnail_op codec alloc e st = Some (r, st') ->
     In (EvUnpack p (unpack_ret codec (source_of e) p)) (trace st')) /\
  (forall image : Image.t,
     alloc_wf alloc ->
     unpack_ret codec (source_of e) p = LIBRAW_SUCCESS ->
     dcraw_process_ret codec (source_of e) p = LIBRAW_SUCCESS ->
     mem_image codec (source_of e) p = Some image ->
     rgb8 image ->
     exists r st',
       thumbnail_op codec alloc e st = Some (r, st') /\
       ThumbnailResult.format r = 1 /\
       ThumbnailResult.size r = ThumbnailResult.width r * ThumbnailResult.height r * 3 /\
       ThumbnailResult.width r = Image.width image /\
       ThumbnailResult.height r = Image.height image).
Proof.
  intros Ho He p. split; [done|]. split.
  - intros r st' H. by apply (fallback_attempted codec alloc e st r st').
  - intros image Hwf Hu Hp Hi Hrgb.
    destruct (alloc_ok alloc (malloc_request alloc image)) eqn:Ha.
    + pose proof (fallback_image_ok codec alloc e st image Ho He Hu Hp Hi Ha) as Hb.
      cbn zeta in Hb.
      destruct (converted_total alloc image Hwf Hrgb) as [blk Hc]. rewrite Hc in Hb.
      destruct Hb as (st' & Hrun & _).
      exists (fallback_result image (new_ptr (heap st))), st'.
      split; [done|]. by apply fallback_result_fields.
    + destruct (fallback_alloc_fails codec alloc e st image Ho He Hu Hp Hi Ha)
        as (st' & Hrun & _).
      exists (fallback_result image nullptr), st'.
      split; [done|]. by apply fallback_result_fields.
Qed.

Lemma half_image_rgb8 : rgb8 half_image.
Proof. unfold rgb8, INT_MAX. cbn. lia. Qed.

Example thumbnail_fallback_half_image :
  exists r st',
    thumbnail_op codec_without_thumb alloc_plenty sample_buffer st_init = Some (r, st') /\
    ThumbnailResult.format r = 1 /\
    ThumbnailResult.size r = ThumbnailResult.width r * ThumbnailResult.height r * 3 /\
    ThumbnailResult.width r = 2 /\
    ThumbnailResult.height r = 1.
Proof.
  destruct (thumbnail_fallback_rgb8 codec_without_thumb alloc_plenty sample_buffer st_init
              eq_refl eq_refl) as (_ & _ & Hresult).
  apply (Hresult half_image); [unfold alloc_wf; cbn; lia | reflexivity | reflexivity
                               | reflexivity | exact half_image_rgb8].
Qed.

(** C2, at an input on which it fails.  The file of a monochrome sensor
    has no embedded thumbnail here and the codec renders it as a 2x1 image
    of one 8-bit channel, [data_size = 2].  The fallback takes the byte
    count from [data_size] and runs the three-bytes-per-pixel loop over
    [width * height] pixels all the same: when [malloc] succeeds the loop
    leaves both the 2-byte image and the 2-byte block (the run has no
    defined result), and when [malloc] fails the result is tagged
    RawBitmap with byte count 2, not [2 * 1 * 3]. *)
Theorem thumbnail_fallback_single_channel :
  embedded codec_monochrome (source_of sample_file) = None /\
  rendered codec_monochrome (source_of sample_file) (fallback_params codec_monochrome)
  = Some grey_image /\
  thumbnail_op codec_monochrome alloc_plenty sample_file st_init = None /\
  exists r st',
    thumbnail_op codec_monochrome alloc_exhausted sample_file st_init = Some (r, st') /\
    ThumbnailResult.format r = 1 /\
    ThumbnailResult.width r = 2 /\ ThumbnailResult.height r = 1 /\
    ThumbnailResult.size r = 2 /\
    ThumbnailResult.size r <> ThumbnailResult.width r * ThumbnailResult.height r * 3.
Proof.
  split; [reflexivity|]. split; [reflexivity|]. split; [reflexivity|].
  eexists _, _. split; [reflexivity|]. by repeat split.
Qed.

(** C3. Embedded thumbnail.  When the source opens and the codec extracts
    an embedded thumbnail (a payload of [data_size] bytes, [data_size] an
    [int]), a thumbnail operation returns a result whose byte count is the
    payload size the codec reports and whose format tag follows the
    payload type the codec reports: Encoded (0) with width = height = 0
    for a JPEG payload, RawBitmap (1) with the payload's width and height
    for a bitmap payload, width and height being set for no other type.
    When [malloc] succeeds the data pointer is a block that was not live
    before and holds the payload bytes unchanged; when it fails the data
    pointer is null. *)
Theorem embedded_thumbnail (codec : Codec) (alloc : Allocator) (e : Entry) (st : State)
    (thumb : Image.t) :
  alloc_wf alloc ->
  open_ret codec (source_of e) = LIBRAW_SUCCESS ->
  embedded codec (source_of e) = Some thumb ->
  payload_wf thumb ->
  exists r st',
    thumbnail_op codec alloc e st = Some (r, st') /\
    ThumbnailResult.size r = Image.data_size thumb /\
    (Image.type thumb = LIBRAW_IMAGE_JPEG ->
     ThumbnailResult.format r = 0 /\
     ThumbnailResult.width r = 0 /\ ThumbnailResult.height r = 0) /\
    (Image.type thumb = LIBRAW_IMAGE_BITMAP ->
     ThumbnailResult.format r = 1 /\
     ThumbnailResult.width r = Image.width thumb /\
     ThumbnailResult.height r = Image.height thumb) /\
    (Image.type thumb <> LIBRAW_IMAGE_BITMAP ->
     ThumbnailResult.width r = 0 /\ ThumbnailResult.height r = 0) /\
    if alloc_ok alloc (Image.data_size thumb) then
      ThumbnailResult.data r <> nullptr /\
      heap st !! ThumbnailResult.data r = None /\
      heap st' !! ThumbnailResult.data r = Some (Image.data thumb)
    else ThumbnailResult.data r = nullptr /\ heap st' = heap st.
Proof.
  intros Hwf Ho He Hp.
  destruct (embedded_copy codec alloc e st thumb Hwf Ho He Hp) as (data & st' & Hrun & Hd).
  exists (embedded_result thumb data), st'. split; [done|].
  rewrite embedded_result_size, embedded_result_data.
  destruct Hp as [Hlen Hmax]. split; [apply to_int_id; lia|].
  split; [|split; [|split]]; try done.
  - intros Hj. apply embedded_result_not_bitmap. by rewrite Hj.
  - apply embedded_result_bitmap.
  - intros Hne. by apply embedded_result_not_bitmap.
Qed.

Lemma embedded_thumbnail_witness :
  exists r st',
    thumbnail_op (codec_with_thumb jpeg_thumb) alloc_plenty sample_file st_init
    = Some (r, st') /\
    ThumbnailResult.size r = 4 /\
    ThumbnailResult.format r = 0 /\
    ThumbnailResult.width r = 0 /\ ThumbnailResult.height r = 0 /\
    ThumbnailResult.data r <> nullptr /\
    heap st_init !! ThumbnailResult.data r = None /\
    heap st' !! ThumbnailResult.data r = Some [Byte.xff; Byte.xd8; Byte.xff; Byte.xd9].
Proof.
  destruct (embedded_thumbnail (codec_with_thumb jpeg_thumb) alloc_plenty sample_file st_init
              jpeg_thumb)
    as (r & st' & Hrun & Hsize & Hjpeg & _ & _ & Hdata).
  - unfold alloc_wf. cbn. lia.
  - reflexivity.
  - reflexivity.
  - unfold payload_wf, INT_MAX. cbn. lia.
  - exists r, st'. cbn in Hdata. specialize (Hjpeg eq_refl). tauto.
Defined.

(** C10. Unknown thumbnail type.  When the source opens and the codec
    extracts an embedded thumbnail whose type is neither JPEG nor bitmap,
    a thumbnail operation still returns the payload: format tag 0
    (Encoded), width = height = 0, the payload's byte count, and (when
    [malloc] succeeds) the payload bytes unchanged in the returned
    buffer. *)
Theorem unknown_thumbnail_type (codec : Codec) (alloc : Allocator) (e : Entry) (st : State)
    (thumb : Image.t) :
  alloc_wf alloc ->
  open_ret codec (source_of e) = LIBRAW_SUCCESS ->
  embedded codec (source_of e) = Some thumb ->
  payload_wf thumb ->
  Image.type thumb <> LIBRAW_IMAGE_JPEG ->
  Image.type thumb <> LIBRAW_IMAGE_BITMAP ->
  exists r st',
    thumbnail_op codec alloc e st = Some (r, st') /\
    ThumbnailResult.format r = 0 /\
    ThumbnailResult.width r = 0 /\ ThumbnailResult.height r = 0 /\
    ThumbnailResult.size r = Image.data_size thumb /\
    if alloc_ok alloc (Image.data_size thumb) then
      ThumbnailResult.data r <> nullptr /\
      heap st' !! ThumbnailResult.data r = Some (Image.data thumb)
    else ThumbnailResult.data r = nullptr.
Proof.
  intros Hwf Ho He Hp Hj Hb.
  destruct (embedded_copy codec alloc e st thumb Hwf Ho He Hp) as (data & st' & Hrun & Hd).
  exists (embedded_result thumb data), st'. split; [done|].
  rewrite embedded_result_size, embedded_result_data.
  destruct (embedded_result_not_bitmap thumb data Hb) as (-> & -> & ->).
  destruct Hp as [Hlen Hmax]. rewrite to_int_id by lia.
  repeat split. destruct (alloc_ok alloc (Image.data_size thumb)); tauto.
Qed.

Lemma unknown_thumbnail_type_witness :
  exists r st',
    thumbnail_op (codec_with_thumb odd_thumb) alloc_plenty sample_wide_file st_init
    = Some (r, st') /\
    ThumbnailResult.format r = 0 /\
    ThumbnailResult.width r = 0 /\ ThumbnailResult.height r = 0 /\
    ThumbnailResult.size r = 2 /\
    ThumbnailResult.data r <> nullptr /\
    heap st' !! ThumbnailResult.data r = Some [Byte.x2a; Byte.x2b].
Proof.
  apply (unknown_thumbnail_type (codec_with_thumb odd_thumb) alloc_plenty sample_wide_file
           st_init odd_thumb).
  - unfold alloc_wf. cbn. lia.
  - reflexivity.
  - reflexivity.
  - unfold payload_wf, INT_MAX. cbn. lia.
  - discriminate.
  - discriminate.
Defined.

(** C4. Failure yields the zero descriptor.  When opening the source
    fails, every decode operation returns the all-zero descriptor (null
    data pointer, zero size, zero dimensions, zero format), the heap is
    unchanged and the call has done nothing but create the [LibRaw]
    object, try to open the source and end the object: no buffer is
    allocated.  When the source opens and a later stage of a preview
    operation fails (unpack, render or materialise), the operation
    likewise returns the zero result with the heap unchanged, and after
    the failing stage it only releases the source: no later stage, no
    thumbnail extraction and no allocation is attempted. *)
Theorem failure_yields_zero (codec : Codec) (alloc : Allocator) (e : Entry) (st : State) :
  (open_ret codec (source_of e) <> LIBRAW_SUCCESS ->
   (exists st',
      thumbnail_op codec alloc e st = Some (ThumbnailResult.zero, st') /\
      leaves st st' (heap st)
        [EvDestroy; EvOpen (source_of e) (open_ret codec (source_of e)); EvCreate]) /\
   (forall half_size : Z,
      exists st',
        preview_op codec alloc e half_size st = Some (ImageResult.zero, st') /\
        leaves st st' (heap st)
          [EvDestroy; EvOpen (source_of e) (open_ret codec (source_of e)); EvCreate])) /\
  (forall half_size : Z,
     let p := preview_params codec half_size in
     open_ret codec (source_of e) = LIBRAW_SUCCESS ->
     (unpack_ret codec (source_of e) p <> LIBRAW_SUCCESS ->
      exists st',
        preview_op codec alloc e half_size st = Some (ImageResult.zero, st') /\
        leaves st st' (heap st)
          [EvDestroy; EvRecycle; EvUnpack p (unpack_ret codec (source_of e) p);
           EvOpen (source_of e) LIBRAW_SUCCESS; EvCreate]) /\
     (unpack_ret codec (source_of e) p = LIBRAW_SUCCESS ->
      dcraw_process_ret codec (source_of e) p <> LIBRAW_SUCCESS ->
      exists st',
        preview_op codec alloc e half_size st = Some (ImageResult.zero, st') /\
        leaves st st' (heap st)
          [EvDestroy; EvRecycle; EvProcess p (dcraw_process_ret codec (source_of e) p);
           EvUnpack p LIBRAW_SUCCESS; EvOpen (source_of e) LIBRAW_SUCCESS; EvCreate]) /\
     (unpack_ret codec (source_of e) p = LIBRAW_SUCCESS ->
      dcraw_process_ret codec (source_of e) p = LIBRAW_SUCCESS ->
      mem_image codec (source_of e) p = None ->
      exists st',
        preview_op codec alloc e half_size st = Some (ImageResult.zero, st') /\
        leaves st st' (heap st)
          [EvDestroy; EvRecycle; EvMakeMemImage p false; EvProcess p LIBRAW_SUCCESS;
           EvUnpack p LIBRAW_SUCCESS; EvOpen (source_of e) LIBRAW_SUCCESS; EvCreate])).
Proof.
  split.
  - intros Ho. split.
    + by apply thumbnail_open_fails.
    + intros half_size. by apply preview_open_fails.
  - intros half_size p Ho. split; [|split].
    + intros Hu. by apply preview_unpack_fails.
    + intros Hu Hp. by apply preview_process_fails.
    + intros Hu Hp Hi. by apply preview_no_image.
Qed.

Lemma failure_yields_zero_witness :
  ((exists st',
      thumbnail_op codec_unsupported alloc_plenty sample_buffer st_init
      = Some (ThumbnailResult.zero, st') /\
      leaves st_init st' ∅ [EvDestroy; EvOpen (source_of sample_buffer) (-2); EvCreate]) /\
   (exists st',
      preview_op codec_unsupported alloc_plenty sample_buffer 1 st_init
      = Some (ImageResult.zero, st') /\
      leaves st_init st' ∅ [EvDestroy; EvOpen (source_of sample_buffer) (-2); EvCreate])) /\
  (exists st',
     preview_op codec_bad_data alloc_plenty sample_file 1 st_init
     = Some (ImageResult.zero, st') /\
     leaves st_init st' ∅
       [EvDestroy; EvRecycle; EvUnpack (preview_params codec_bad_data 1) (-4);
        EvOpen (source_of sample_file) LIBRAW_SUCCESS; EvCreate]) /\
  (exists st',
     preview_op codec_low_memory alloc_plenty sample_file 0 st_init
     = Some (ImageResult.zero, st') /\
     leaves st_init st' ∅
       [EvDestroy; EvRecycle; EvProcess (preview_params codec_low_memory 0) (-100007);
        EvUnpack (preview_params codec_low_memory 0) LIBRAW_SUCCESS;
        EvOpen (source_of sample_file) LIBRAW_SUCCESS; EvCreate]) /\
  (exists st',
     preview_op codec_no_image alloc_plenty sample_wide_file 0 st_init
     = Some (ImageResult.zero, st') /\
     leaves st_init st' ∅
       [EvDestroy; EvRecycle; EvMakeMemImage (preview_params codec_no_image 0) false;
        EvProcess (preview_params codec_no_image 0) LIBRAW_SUCCESS;
        EvUnpack (preview_params codec_no_image 0) LIBRAW_SUCCESS;
        EvOpen (source_of sample_wide_file) LIBRAW_SUCCESS; EvCreate]).
Proof.
  split; [|split; [|split]].
  - destruct (failure_yields_zero codec_unsupported alloc_plenty sample_buffer st_init)
      as [Hopen _].
    destruct Hopen as [Ht Hp]; [discriminate|]. split; [exact Ht | exact (Hp 1)].
  - destruct (failure_yields_zero codec_bad_data alloc_plenty sample_file st_init)
      as [_ Hstage].
    destruct (Hstage 1 eq_refl) as (Hu & _). apply Hu. discriminate.
  - destruct (failure_yields_zero codec_low_memory alloc_plenty sample_file st_init)
      as [_ Hstage].
    destruct (Hstage 0 eq_refl) as (_ & Hp & _). apply Hp; [reflexivity | discriminate].
  - destruct (failure_yields_zero codec_no_image alloc_plenty sample_wide_file st_init)
      as [_ Hstage].
    destruct (Hstage 0 eq_refl) as (_ & _ & Hi). apply Hi; reflexivity.
Defined.

(** C5. The source is released on every exit path.  Whenever a decode
    operation returns, no [LibRaw] object of the call is alive any more,
    and the last operations of the call are [recycle()] followed by the
    end of the object when the source had been opened, and the end of the
    object straight after the failed open otherwise (the early return):
    the automatic object is destroyed, and with it reset, on that path
    too.  The early return is taken, with a result, whenever the open
    fails. *)
Theorem source_released (codec : Codec) (alloc : Allocator) (e : Entry) (st : State) :
  (forall (r : ThumbnailResult.t) (st' : State),
     thumbnail_op codec alloc e st = Some (r, st') ->
     rawproc st' = None /\
     exists evs, quiet (trace st') = evs ++ quiet (trace st) /\ released evs = true) /\
  (forall (half_size : Z) (r : ImageResult.t) (st' : State),
     preview_op codec alloc e half_size st = Some (r, st') ->
     rawproc st' = None /\
     exists evs, quiet (trace st') = evs ++ quiet (trace st) /\ released evs = true) /\
  (open_ret codec (source_of e) <> LIBRAW_SUCCESS ->
   (exists r st', thumbnail_op codec alloc e st = Some (r, st')) /\
   (forall half_size : Z, exists r st', preview_op codec alloc e half_size st = Some (r, st'))).
Proof.
  split; [|split].
  - intros r st' H. apply thumbnail_cases in H as (evs & Hr & Hq & Hrel & _).
    split; [done|]. by exists evs.
  - intros half_size r st' H. apply preview_cases in H as (evs & Hr & Hq & Hrel & _).
    split; [done|]. by exists evs.
  - intros Ho. split.
    + destruct (thumbnail_open_fails codec alloc e st Ho) as (st' & H & _). eauto.
    + intros half_size.
      destruct (preview_open_fails codec alloc e half_size st Ho) as (st' & H & _). eauto.
Qed.

Lemma source_released_witness :
  (exists r st',
     thumbnail_op (codec_with_thumb jpeg_thumb) alloc_plenty sample_file st_init
     = Some (r, st') /\
     rawproc st' = None /\
     exists evs, quiet (trace st') = evs ++ quiet (trace st_init) /\ released evs = true) /\
  (exists r st',
     preview_op codec_bad_data alloc_plenty sample_wide_file 1 st_init = Some (r, st') /\
     rawproc st' = None /\
     exists evs, quiet (trace st') = evs ++ quiet (trace st_init) /\ released evs = true) /\
  (exists r st',
     thumbnail_op codec_unsupported alloc_plenty sample_buffer st_init = Some (r, st') /\
     rawproc st' = None /\
     exists evs, quiet (trace st') = evs ++ quiet (trace st_init) /\ released evs = true).
Proof.
  split; [|split].
  - eexists _, _. split; [reflexivity|].
    eapply (proj1 (source_released (codec_with_thumb jpeg_thumb) alloc_plenty sample_file
                     st_init)).
    reflexivity.
  - eexists _, _. split; [reflexivity|].
    eapply (proj1 (proj2 (source_released codec_bad_data alloc_plenty sample_wide_file
                            st_init)) 1).
    reflexivity.
  - destruct (source_released codec_unsupported alloc_plenty sample_buffer st_init)
      as (Hthumb & _ & Hearly).
    destruct Hearly as [(r & st' & H) _]; [discriminate|].
    exists r, st'. split; [exact H|]. exact (Hthumb r st' H).
Defined.

(** C6. Allocation failure.  When the codec has produced a payload (an
    embedded thumbnail, the image of the thumbnail fallback, or the image
    of a preview) of at least one byte and an [int] byte count, and
    [malloc] fails for it, the operation returns a result whose byte
    count is the payload's size and whose data pointer is null; the heap
    is unchanged (nothing is copied or converted), and the result is not
    the all-zero descriptor. *)
Theorem allocation_failure (codec : Codec) (alloc : Allocator) (e : Entry) (st : State)
    (image : Image.t) :
  nonempty_payload image ->
  alloc_ok alloc (malloc_request alloc image) = false ->
  open_ret codec (source_of e) = LIBRAW_SUCCESS ->
  (embedded codec (source_of e) = Some image ->
   exists r st',
     thumbnail_op codec alloc e st = Some (r, st') /\
     ThumbnailResult.data r = nullptr /\
     ThumbnailResult.size r = Image.data_size image /\
     heap st' = heap st /\ r <> ThumbnailResult.zero) /\
  (embedded codec (source_of e) = None ->
   unpack_ret codec (source_of e) (fallback_params codec) = LIBRAW_SUCCESS ->
   dcraw_process_ret codec (source_of e) (fallback_params codec) = LIBRAW_SUCCESS ->
   mem_image codec (source_of e) (fallback_params codec) = Some image ->
   exists r st',
     thumbnail_op codec alloc e st = Some (r, st') /\
     ThumbnailResult.data r = nullptr /\
     ThumbnailResult.size r = Image.data_size image /\
     heap st' = heap st /\ r <> ThumbnailResult.zero) /\
  (forall half_size : Z,
     unpack_ret codec (source_of e) (preview_params codec half_size) = LIBRAW_SUCCESS ->
     dcraw_process_ret codec (source_of e) (preview_params codec half_size)
     = LIBRAW_SUCCESS ->
     mem_image codec (source_of e) (preview_params codec half_size) = Some image ->
     exists r st',
       preview_op codec alloc e half_size st = Some (r, st') /\
       ImageResult.data r = nullptr /\
       ImageResult.size r = Image.data_size image /\
       heap st' = heap st /\ r <> ImageResult.zero).
Proof.
  intros Hne Ha Ho.
  assert (Hsize : to_int (Image.data_size image) = Image.data_size image)
    by (apply to_int_id; unfold nonempty_payload in Hne; lia).
  split; [|split].
  - intros He.
    destruct (thumbnail_embedded_alloc_fails codec alloc e st image Ho He Ha)
      as (st' & Hrun & Hh & _).
    exists (embedded_result image nullptr), st'. split; [done|].
    rewrite embedded_result_data, embedded_result_size, Hsize. repeat split; try done.
    intros Hz. apply (f_equal ThumbnailResult.size) in Hz.
    rewrite embedded_result_size, Hsize in Hz. cbn in Hz.
    unfold nonempty_payload in Hne. lia.
  - intros He Hu Hp Hi.
    destruct (fallback_alloc_fails codec alloc e st image Ho He Hu Hp Hi Ha)
      as (st' & Hrun & Hh & _).
    exists (fallback_result image nullptr), st'. split; [done|]. cbn.
    rewrite Hsize. by repeat split.
  - intros half_size Hu Hp Hi.
    destruct (preview_alloc_fails codec alloc e half_size st image Ho Hu Hp Hi Ha)
      as (st' & Hrun & Hh & _).
    exists (preview_result image nullptr), st'. split; [done|]. cbn.
    rewrite Hsize. repeat split; try done.
    intros Hz. apply (f_equal ImageResult.size) in Hz. cbn in Hz.
    unfold nonempty_payload in Hne. lia.
Qed.

Lemma allocation_failure_witness :
  (exists r st',
     thumbnail_op (codec_with_thumb jpeg_thumb) alloc_exhausted sample_file st_init
     = Some (r, st') /\
     ThumbnailResult.data r = nullptr /\ ThumbnailResult.size r = 4 /\
     heap st' = heap st_init /\ r <> ThumbnailResult.zero) /\
  (exists r st',
     thumbnail_op codec_without_thumb alloc_exhausted sample_file st_init = Some (r, st') /\
     ThumbnailResult.data r = nullptr /\ ThumbnailResult.size r = 6 /\
     heap st' = heap st_init /\ r <> ThumbnailResult.zero) /\
  (exists r st',
     preview_op codec_without_thumb alloc_exhausted sample_file 1 st_init = Some (r, st') /\
     ImageResult.data r = nullptr /\ ImageResult.size r = 6 /\
     heap st' = heap st_init /\ r <> ImageResult.zero).
Proof.
  split; [|split].
  - destruct (allocation_failure (codec_with_thumb jpeg_thumb) alloc_exhausted sample_file
                st_init jpeg_thumb) as (H & _).
    + unfold nonempty_payload, INT_MAX. cbn. lia.
    + reflexivity.
    + reflexivity.
    + apply H. reflexivity.
  - destruct (allocation_failure codec_without_thumb alloc_exhausted sample_file
                st_init half_image) as (_ & H & _).
    + unfold nonempty_payload, INT_MAX. cbn. lia.
    + reflexivity.
    + reflexivity.
    + apply H; reflexivity.
  - destruct (allocation_failure codec_without_thumb alloc_exhausted sample_file
                st_init half_image) as (_ & _ & H).
    + unfold nonempty_payload, INT_MAX. cbn. lia.
    + reflexivity.
    + reflexivity.
    + apply (H 1); reflexivity.
Defined.

(** C7. [free_buffer] on a null pointer is a safe no-op: it has a result
    (no undefined behaviour) and leaves the whole state as it was: no
    block is released and no [free] is called. *)
Theorem free_buffer_null (st : State) : free_buffer nullptr st = Some (tt, st).
Proof. reflexivity. Qed.

(** C8. Two preview calls with [halfSize = 1] on the same input return
    results of the same width, height and byte count, whatever the heap
    they start from and whether or not their allocations succeed. *)
Theorem preview_structure_repeatable (codec : Codec) (alloc1 alloc2 : Allocator) (e : Entry)
    (st1 st2 : State) (r1 r2 : ImageResult.t) (st1' st2' : State) :
  preview_op codec alloc1 e 1 st1 = Some (r1, st1') ->
  preview_op codec alloc2 e 1 st2 = Some (r2, st2') ->
  ImageResult.width r1 = ImageResult.width r2 /\
  ImageResult.height r1 = ImageResult.height r2 /\
  ImageResult.size r1 = ImageResult.size r2.
Proof.
  intros H1 H2.
  apply preview_cases in H1 as (evs1 & _ & _ & _ & H1).
  apply preview_cases in H2 as (evs2 & _ & _ & _ & H2).
  destruct (rendered codec (source_of e) (preview_params codec 1)) as [image|].
  - destruct (alloc_ok alloc1 _), (alloc_ok alloc2 _);
      destruct H1 as [-> _], H2 as [-> _]; done.
  - by destruct H1 as [-> _], H2 as [-> _].
Qed.

Lemma preview_structure_repeatable_witness :
  exists r1 st1' r2 st2',
    preview_op codec_without_thumb alloc_plenty sample_file 1 st_init = Some (r1, st1') /\
    preview_op codec_without_thumb alloc_exhausted sample_file 1 st_init = Some (r2, st2') /\
    ImageResult.data r1 <> ImageResult.data r2 /\
    ImageResult.width r1 = ImageResult.width r2 /\
    ImageResult.height r1 = ImageResult.height r2 /\
    ImageResult.size r1 = ImageResult.size r2.
Proof.
  eexists _, _, _, _. split; [reflexivity|]. split; [reflexivity|].
  split; [vm_compute; discriminate|].
  eapply (preview_structure_repeatable codec_without_thumb alloc_plenty alloc_exhausted
            sample_file st_init st_init); reflexivity.
Defined.

(** C9, as stated, fails.  On a file whose full-size rendering runs out
    of memory while its half-size rendering succeeds, the call with
    [halfSize = 0] returns the zero result (width = height = 0) and the
    call with [halfSize = 1] a 2x1 image, although the codec itself never
    renders a half-size image larger than the full-size one. *)
Lemma half_size_monotone_counterexample :
  half_size_shrinks codec_low_memory (source_of sample_file) /\
  (exists st0 r1 st1,
     preview_op codec_low_memory alloc_plenty sample_file 0 st_init
     = Some (ImageResult.zero, st0) /\
     preview_op codec_low_memory alloc_plenty sample_file 1 st_init = Some (r1, st1) /\
     ImageResult.width r1 = 2 /\ ImageResult.height r1 = 1) /\
  ~ half_size_monotone codec_low_memory alloc_plenty sample_file st_init.
Proof.
  split; [|split].
  - intros full [= <-]. cbn. split; [lia|]. split; [lia|].
    intros half [= <-]. cbn. lia.
  - eexists _, _, _. split; [reflexivity|]. split; [reflexivity|]. by split.
  - intros Hmono.
    assert (H0 : exists st0,
               preview_op codec_low_memory alloc_plenty sample_file 0 st_init
               = Some (ImageResult.zero, st0)) by (eexists; reflexivity).
    assert (H1 : exists st1,
               preview_op codec_low_memory alloc_plenty sample_file 1 st_init
               = Some (ImageResult.mk 1%N 6 2 1, st1)) by (eexists; reflexivity).
    destruct H0 as [st0 H0], H1 as [st1 H1].
    destruct (Hmono _ _ _ _ H0 H1) as [Hw _]. cbn in Hw. lia.
Qed.

(** C9, amended.  With a codec whose half-size image of a source is no
    larger than its full-size image, and on an input for which the call
    with [halfSize = 0] gets its image (the source opens, unpacks, renders
    and is materialised under the full-size parameters), the call with
    [halfSize = 0] returns a width and a height at least those the call
    with [halfSize = 1] returns on the same input. *)
Theorem half_size_monotone_when_rendered (codec : Codec) (alloc : Allocator) (e : Entry)
    (st : State) (full : Image.t) :
  half_size_shrinks codec (source_of e) ->
  open_ret codec (source_of e) = LIBRAW_SUCCESS ->
  unpack_ret codec (source_of e) (preview_params codec 0) = LIBRAW_SUCCESS ->
  dcraw_process_ret codec (source_of e) (preview_params codec 0) = LIBRAW_SUCCESS ->
  mem_image codec (source_of e) (preview_params codec 0) = Some full ->
  half_size_monotone codec alloc e st.
Proof.
  intros Hshrinks Ho Hu Hp Hi r0 st0 r1 st1 H0 H1.
  destruct (Hshrinks full Hi) as (Hw & Hh & Hhalf).
  apply preview_cases in H0 as (evs0 & _ & _ & _ & H0).
  apply preview_cases in H1 as (evs1 & _ & _ & _ & H1).
  unfold rendered in H0, H1. rewrite Ho in H0, H1. rewrite Hu, Hp, Hi in H0. cbn in H0, H1.
  assert (Hr0 : ImageResult.width r0 = Image.width full /\
                ImageResult.height r0 = Image.height full)
    by (destruct (alloc_ok alloc _); by destruct H0 as [-> _]).
  destruct Hr0 as [-> ->].
  repeat case_match; simplify_eq; destruct H1 as [-> _]; cbn; try lia.
  all: match goal with
       | Hm : mem_image _ _ _ = Some ?half |- _ => destruct (Hhalf half Hm); lia
       end.
Qed.

Lemma half_size_monotone_when_rendered_witness :
  exists r0 st0 r1 st1,
    preview_op codec_without_thumb alloc_plenty sample_file 0 st_init = Some (r0, st0) /\
    preview_op codec_without_thumb alloc_plenty sample_file 1 st_init = Some (r1, st1) /\
    ImageResult.width r0 = 4 /\ ImageResult.width r1 = 2 /\
    ImageResult.width r0 >= ImageResult.width r1 /\
    ImageResult.height r0 >= ImageResult.height r1.
Proof.
  eexists _, _, _, _. split; [reflexivity|]. split; [reflexivity|].
  split; [reflexivity|]. split; [reflexivity|].
  eapply (half_size_monotone_when_rendered codec_without_thumb alloc_plenty sample_file
            st_init full_image).
  - intros full [= <-]. cbn. split; [lia|]. split; [lia|].
    intros half [= <-]. cbn. lia.
  - reflexivity.
  - reflexivity.
  - reflexivity.
  - reflexivity.
  - reflexivity.
  - reflexivity.
Defined.

(** * Further properties of the wrappers *)

(** ** What a caller observes, from the codec's answers *)

Lemma preview_observed (codec : Codec) (alloc : Allocator) (e : Entry) (half_size : Z)
    (st : State) :
  observed (preview_op codec alloc e half_size st)
  = preview_outcome codec alloc (source_of e) half_size (heap st).
Proof.
  unfold preview_outcome, rendered, bitmap_outcome.
  destruct (Z.eqb_spec (open_ret codec (source_of e)) LIBRAW_SUCCESS) as [Ho|Ho].
  2: { destruct (preview_open_fails codec alloc e half_size st Ho) as (st' & -> & <- & _).
       done. }
  destruct (Z.eqb_spec (unpack_ret codec (source_of e) (preview_params codec half_size))
              LIBRAW_SUCCESS) as [Hu|Hu].
  2: { destruct (preview_unpack_fails codec alloc e half_size st Ho Hu)
         as (st' & -> & <- & _). done. }
  destruct (Z.eqb_spec (dcraw_process_ret codec (source_of e)
              (preview_params codec half_size)) LIBRAW_SUCCESS) as [Hp|Hp].
  2: { destruct (preview_process_fails codec alloc e half_size st Ho Hu Hp)
         as (st' & -> & <- & _). done. }
  destruct (mem_image codec (source_of e) (preview_params codec half_size))
    as [image|] eqn:Hi.
  2: { destruct (preview_no_image codec alloc e half_size st Ho Hu Hp Hi)
         as (st' & -> & <- & _). done. }
  destruct (alloc_ok alloc (malloc_request alloc image)) eqn:Ha.
  2: { destruct (preview_alloc_fails codec alloc e half_size st image Ho Hu Hp Hi Ha)
         as (st' & -> & <- & _). done. }
  pose proof (preview_image_ok codec alloc e half_size st image Ho Hu Hp Hi Ha) as Hb.
  cbn zeta in Hb.
  destruct (converted image _) as [blk|].
  - destruct Hb as (st' & -> & <- & _). done.
  - by rewrite Hb.
Qed.

Lemma thumbnail_observed (codec : Codec) (alloc : Allocator) (e : Entry) (st : State) :
  observed (thumbnail_op codec alloc e st)
  = thumbnail_outcome codec alloc (source_of e) (heap st).
Proof.
  unfold thumbnail_outcome, rendered, bitmap_outcome.
  destruct (Z.eqb_spec (open_ret codec (source_of e)) LIBRAW_SUCCESS) as [Ho|Ho]; cbn.
  2: { destruct (thumbnail_open_fails codec alloc e st Ho) as (st' & -> & <- & _). done. }
  destruct (embedded codec (source_of e)) as [thumb|] eqn:He.
  { destruct (alloc_ok alloc (malloc_request alloc thumb)) eqn:Ha.
    2: { destruct (thumbnail_embedded_alloc_fails codec alloc e st thumb Ho He Ha)
           as (st' & -> & <- & _). done. }
    pose proof (thumbnail_embedded_ok codec alloc e st thumb Ho He Ha) as Hb.
    cbn zeta in Hb.
    destruct (_ <=? _)%nat.
    - destruct Hb as (st' & -> & <- & _). done.
    - by rewrite Hb. }
  destruct (Z.eqb_spec (unpack_ret codec (source_of e) (fallback_params codec))
              LIBRAW_SUCCESS) as [Hu|Hu].
  2: { destruct (fallback_unpack_fails codec alloc e st Ho He Hu) as (st' & -> & <- & _).
       done. }
  destruct (Z.eqb_spec (dcraw_process_ret codec (source_of e) (fallback_params codec))
              LIBRAW_SUCCESS) as [Hp|Hp].
  2: { destruct (fallback_process_fails codec alloc e st Ho He Hu Hp)
         as (st' & -> & <- & _). done. }
  destruct (mem_image codec (source_of e) (fallback_params codec)) as [image|] eqn:Hi.
  2: { destruct (fallback_no_image codec alloc e st Ho He Hu Hp Hi) as (st' & -> & <- & _).
       done. }
  destruct (alloc_ok alloc (malloc_request alloc image)) eqn:Ha.
  2: { destruct (fallback_alloc_fails codec alloc e st image Ho He Hu Hp Hi Ha)
         as (st' & -> & <- & _). done. }
  pose proof (fallback_image_ok codec alloc e st image Ho He Hu Hp Hi Ha) as Hb.
  cbn zeta in Hb.
  destruct (converted image _) as [blk|].
  - destruct Hb as (st' & -> & <- & _). done.
  - by rewrite Hb.
Qed.

Lemma observed_Some {A : Type} (run : option (A * State)) (a : A) (st' : State) :
  run = Some (a, st') -> observed run = Some (a, heap st').
Proof. by intros ->. Qed.

(** The heap a run leaves is the one it found, or that with one block
    added at an address that was neither null nor live. *)
Lemma bitmap_outcome_heap {R : Type} (alloc : Allocator) (image : Image.t)
    (result : ptr -> R) (h h' : gmap N (list uint8_t)) (r : R) :
  bitmap_outcome alloc image result h = Some (r, h') ->
  (r = result nullptr /\ h' = h) \/
  (exists blk,
     r = result (new_ptr h) /\ h' = <[new_ptr h := blk]> h /\
     converted image (new_block alloc (to_int (Image.data_size image))) = Some blk).
Proof.
  unfold bitmap_outcome. intros H. repeat case_match; simplify_eq; eauto.
Qed.

Lemma converted_length (image : Image.t) (blk out : list uint8_t) :
  converted image blk = Some out -> length out = length blk.
Proof.
  unfold converted. intros H.
  apply bind_Some in H as (tp & _ & H). by apply swap_loop_length in H.
Qed.

Lemma preview_buffer (codec : Codec) (alloc : Allocator) (e : Entry) (half_size : Z)
    (st : State) (r : ImageResult.t) (st' : State) :
  preview_op codec alloc e half_size st = Some (r, st') ->
  buffer_of alloc (heap st) (heap st') (ImageResult.data r) (ImageResult.size r).
Proof.
  intros H%observed_Some. rewrite preview_observed in H.
  unfold preview_outcome in H.
  destruct (rendered _ _ _) as [image|]; [|injection H as <- <-; by left].
  apply bitmap_outcome_heap in H as [[-> ->]|(blk & -> & -> & Hc)]; [by left|].
  right. split; [done|]. exists blk. split; [done|].
  apply converted_length in Hc. rewrite Hc. unfold new_block. by rewrite length_replicate.
Qed.

Lemma thumbnail_buffer (codec : Codec) (alloc : Allocator) (e : Entry) (st : State)
    (r : ThumbnailResult.t) (st' : State) :
  thumbnail_op codec alloc e st = Some (r, st') ->
  buffer_of alloc (heap st) (heap st') (ThumbnailResult.data r) (ThumbnailResult.size r).
Proof.
  intros H%observed_Some. rewrite thumbnail_observed in H.
  unfold thumbnail_outcome in H.
  destruct (negb _); [injection H as <- <-; by left|].
  destruct (embedded _ _) as [thumb|].
  - destruct (alloc_ok _ _).
    + destruct (Nat.leb_spec (Z.to_nat (malloc_request alloc thumb))
                  (length (Image.data thumb))) as [Hle|]; [|done].
      injection H as <- <-. right.
      rewrite embedded_result_data, embedded_result_size. split; [done|].
      eexists. split; [done|]. rewrite length_take. unfold malloc_request in *. lia.
    + injection H as <- <-. left. by rewrite embedded_result_data.
  - destruct (rendered _ _ _) as [image|]; [|injection H as <- <-; by left].
    apply bitmap_outcome_heap in H as [[-> ->]|(blk & -> & -> & Hc)]; [by left|].
    right. split; [done|]. exists blk. split; [done|].
    apply converted_length in Hc. rewrite Hc. unfold new_block.
    by rewrite length_replicate.
Qed.

Lemma free_buffer_new_block (h : gmap N (list uint8_t)) (blk : list uint8_t) (st' : State) :
  heap st' = <[new_ptr h := blk]> h ->
  exists st'',
    free_buffer (new_ptr h) st' = Some (tt, st'') /\ heap st'' = h /\
    free_buffer (new_ptr h) st'' = None.
Proof.
  intros Hh. unfold free_buffer, free. rewrite new_ptr_not_null. cbn.
  rewrite Hh, lookup_insert_eq.
  eexists. split; [reflexivity|]. cbn.
  rewrite delete_insert_id by apply new_ptr_fresh. split; [done|].
  by rewrite new_ptr_fresh.
Qed.

(** X1. Decode, then release.  Handing the data pointer of any returned
    result (null or not) to [free_buffer] is defined and leaves the heap
    exactly as it was before the decode call: a call allocates nothing
    that the returned pointer does not give back. *)
Theorem release_restores_heap (codec : Codec) (alloc : Allocator) (e : Entry) (st : State) :
  (forall (r : ThumbnailResult.t) (st' : State),
     thumbnail_op codec alloc e st = Some (r, st') ->
     exists st'',
       free_buffer (ThumbnailResult.data r) st' = Some (tt, st'') /\ heap st'' = heap st) /\
  (forall (half_size : Z) (r : ImageResult.t) (st' : State),
     preview_op codec alloc e half_size st = Some (r, st') ->
     exists st'',
       free_buffer (ImageResult.data r) st' = Some (tt, st'') /\ heap st'' = heap st).
Proof.
  split.
  - intros r st' [[-> Hh]|[-> (blk & Hh & _)]]%thumbnail_buffer.
    + by exists st'.
    + destruct (free_buffer_new_block _ blk st' Hh) as (st'' & ? & ? & _). eauto.
  - intros half_size r st' [[-> Hh]|[-> (blk & Hh & _)]]%preview_buffer.
    + by exists st'.
    + destruct (free_buffer_new_block _ blk st' Hh) as (st'' & ? & ? & _). eauto.
Qed.

Lemma release_restores_heap_witness :
  (exists r st',
     thumbnail_op (codec_with_thumb jpeg_thumb) alloc_plenty sample_file st_init
     = Some (r, st') /\
     ThumbnailResult.data r <> nullptr /\
     exists st2,
       free_buffer (ThumbnailResult.data r) st' = Some (tt, st2) /\
       heap st2 = heap st_init) /\
  (exists r st',
     preview_op codec_without_thumb alloc_plenty sample_wide_file 0 st_init = Some (r, st') /\
     ImageResult.data r <> nullptr /\
     exists st2,
       free_buffer (ImageResult.data r) st' = Some (tt, st2) /\
       heap st2 = heap st_init).
Proof.
  split.
  - eexists _, _. split; [reflexivity|]. split; [vm_compute; discriminate|].
    eapply (proj1 (release_restores_heap (codec_with_thumb jpeg_thumb) alloc_plenty
                     sample_file st_init)).
    reflexivity.
  - eexists _, _. split; [reflexivity|]. split; [vm_compute; discriminate|].
    eapply (proj2 (release_restores_heap codec_without_thumb alloc_plenty
                     sample_wide_file st_init) 0).
    reflexivity.
Defined.

(** X2. No guard against a second release.  Once [free_buffer] has
    released the non-null data pointer of a returned result, a second
    [free_buffer] on the same pointer has no defined result. *)
Theorem second_release_undefined (codec : Codec) (alloc : Allocator) (e : Entry)
    (st : State) :
  (forall (r : ThumbnailResult.t) (st1 st2 : State),
     thumbnail_op codec alloc e st = Some (r, st1) ->
     ThumbnailResult.data r <> nullptr ->
     free_buffer (ThumbnailResult.data r) st1 = Some (tt, st2) ->
     free_buffer (ThumbnailResult.data r) st2 = None) /\
  (forall (half_size : Z) (r : ImageResult.t) (st1 st2 : State),
     preview_op codec alloc e half_size st = Some (r, st1) ->
     ImageResult.data r <> nullptr ->
     free_buffer (ImageResult.data r) st1 = Some (tt, st2) ->
     free_buffer (ImageResult.data r) st2 = None).
Proof.
  split.
  - intros r st1 st2 [[-> Hh]|[-> (blk & Hh & _)]]%thumbnail_buffer Hnull Hfree; [done|].
    destruct (free_buffer_new_block _ blk st1 Hh) as (st3 & H1 & _ & H2). congruence.
  - intros half_size r st1 st2 [[-> Hh]|[-> (blk & Hh & _)]]%preview_buffer Hnull Hfree;
      [done|].
    destruct (free_buffer_new_block _ blk st1 Hh) as (st3 & H1 & _ & H2). congruence.
Qed.

Lemma second_release_undefined_witness :
  exists r st1 st2,
    preview_op codec_without_thumb alloc_plenty sample_file 1 st_init = Some (r, st1) /\
    free_buffer (ImageResult.data r) st1 = Some (tt, st2) /\
    free_buffer (ImageResult.data r) st2 = None.
Proof.
  eexists _, _, _. split; [reflexivity|]. split; [reflexivity|].
  eapply (proj2 (second_release_undefined codec_without_thumb alloc_plenty sample_file
                   st_init) 1);
    [reflexivity | vm_compute; discriminate | reflexivity].
Defined.

(** X3. A decode call leaves the caller's memory alone.  Every block
    that is live before a call is live after it with the same contents;
    the only block a call can add is the one its result points to, at an
    address that was not live; and a result with a null data pointer
    comes with the heap unchanged. *)
Theorem decode_preserves_heap (codec : Codec) (alloc : Allocator) (e : Entry) (st : State) :
  (forall (r : ThumbnailResult.t) (st' : State),
     thumbnail_op codec alloc e st = Some (r, st') ->
     (forall (q : ptr) (blk : list uint8_t),
        heap st !! q = Some blk -> heap st' !! q = Some blk) /\
     (forall q : ptr,
        heap st !! q = None -> is_Some (heap st' !! q) -> q = ThumbnailResult.data r) /\
     (ThumbnailResult.data r = nullptr -> heap st' = heap st) /\
     (ThumbnailResult.data r <> nullptr -> heap st !! ThumbnailResult.data r = None)) /\
  (forall (half_size : Z) (r : ImageResult.t) (st' : State),
     preview_op codec alloc e half_size st = Some (r, st') ->
     (forall (q : ptr) (blk : list uint8_t),
        heap st !! q = Some blk -> heap st' !! q = Some blk) /\
     (forall q : ptr,
        heap st !! q = None -> is_Some (heap st' !! q) -> q = ImageResult.data r) /\
     (ImageResult.data r = nullptr -> heap st' = heap st) /\
     (ImageResult.data r <> nullptr -> heap st !! ImageResult.data r = None)).
Proof.
  assert (Hframe : forall (h h' : gmap N (list uint8_t)) (data : ptr) (size : Z),
            buffer_of alloc h h' data size ->
            (forall q blk, h !! q = Some blk -> h' !! q = Some blk) /\
            (forall q, h !! q = None -> is_Some (h' !! q) -> q = data) /\
            (data = nullptr -> h' = h) /\
            (data <> nullptr -> h !! data = None)).
  { intros h h' data size [[-> ->]|[-> (blk & -> & _)]].
    - repeat split; try done. intros q Hq [x Hx]. congruence.
    - repeat split.
      + intros q b Hq. rewrite lookup_insert_ne; [done|].
        intros <-. by rewrite new_ptr_fresh in Hq.
      + intros q Hq [x Hx]. destruct (decide (new_ptr h = q)) as [|Hne]; [done|].
        rewrite lookup_insert_ne in Hx by done. congruence.
      + intros Hz. apply N.eqb_eq in Hz. by rewrite new_ptr_not_null in Hz.
      + intros _. apply new_ptr_fresh. }
  split.
  - intros r st' H. eapply Hframe. by eapply thumbnail_buffer.
  - intros half_size r st' H. eapply Hframe. by eapply preview_buffer.
Qed.

Lemma decode_preserves_heap_witness :
  heap st_with_buffer !! 1%N = Some (Image.data jpeg_thumb) /\
  exists r st',
    preview_op codec_without_thumb alloc_plenty sample_file 1 st_with_buffer
    = Some (r, st') /\
    heap st' !! 1%N = Some (Image.data jpeg_thumb) /\
    ImageResult.data r <> nullptr /\
    heap st_with_buffer !! ImageResult.data r = None.
Proof.
  split; [reflexivity|].
  eexists _, _. split; [reflexivity|].
  destruct (proj2 (decode_preserves_heap codec_without_thumb alloc_plenty sample_file
                     st_with_buffer) 1 _ _ eq_refl) as (Hkept & _ & _ & Hfresh).
  split; [|split].
  - apply Hkept. reflexivity.
  - vm_compute. discriminate.
  - apply Hfresh. vm_compute. discriminate.
Defined.

(** X4. The entry points are one operation.  For two entries (an Android
    path, an Android buffer, a Windows path) whose sources the codec
    answers alike, and from states with the same heap, the thumbnail
    operations return the same result and leave the same heap, or are
    both undefined; and so do the preview operations for every
    [half_size]. *)
Theorem entry_points_agree (codec : Codec) (alloc : Allocator) (e1 e2 : Entry)
    (st1 st2 : State) :
  same_answers codec (source_of e1) (source_of e2) ->
  heap st1 = heap st2 ->
  observed (thumbnail_op codec alloc e1 st1) = observed (thumbnail_op codec alloc e2 st2) /\
  forall half_size : Z,
    observed (preview_op codec alloc e1 half_size st1)
    = observed (preview_op codec alloc e2 half_size st2).
Proof.
  intros (Ho & Hut & Hmt & Hp) Hh.
  assert (He : embedded codec (source_of e1) = embedded codec (source_of e2))
    by (unfold embedded; by rewrite Hut, Hmt).
  assert (Hr : forall p, rendered codec (source_of e1) p = rendered codec (source_of e2) p).
  { intros p. destruct (Hp p) as (Hu & Hd & Hi). unfold rendered.
    by rewrite Ho, Hu, Hd, Hi. }
  split.
  - rewrite !thumbnail_observed. unfold thumbnail_outcome. by rewrite Ho, He, Hr, Hh.
  - intros half_size. rewrite !preview_observed. unfold preview_outcome.
    by rewrite Hr, Hh.
Qed.

Lemma entry_points_agree_witness :
  observed (thumbnail_op codec_without_thumb alloc_plenty sample_buffer st_init)
  = observed (thumbnail_op codec_without_thumb alloc_plenty sample_wide_file
                (emit EvCreate st_init)) /\
  forall half_size : Z,
    observed (preview_op codec_without_thumb alloc_plenty sample_buffer half_size st_init)
    = observed (preview_op codec_without_thumb alloc_plenty sample_wide_file half_size
                  (emit EvCreate st_init)).
Proof.
  apply (entry_points_agree codec_without_thumb alloc_plenty sample_buffer
           sample_wide_file st_init (emit EvCreate st_init)).
  - repeat split.
  - reflexivity.
Defined.

(** X5. The buffer has as many bytes as the byte count says.  With a
    [size_t] that holds every non-negative [int], a returned result whose
    data pointer is not null points to a live block of exactly [size]
    bytes whenever [size] is not negative. *)
Theorem buffer_has_size_bytes (codec : Codec) (alloc : Allocator) (e : Entry) (st : State) :
  alloc_wf alloc ->
  (forall (r : ThumbnailResult.t) (st' : State),
     thumbnail_op codec alloc e st = Some (r, st') ->
     ThumbnailResult.data r <> nullptr ->
     0 <= ThumbnailResult.size r ->
     exists blk,
       heap st' !! ThumbnailResult.data r = Some blk /\
       Z.of_nat (length blk) = ThumbnailResult.size r) /\
  (forall (half_size : Z) (r : ImageResult.t) (st' : State),
     preview_op codec alloc e half_size st = Some (r, st') ->
     ImageResult.data r <> nullptr ->
     0 <= ImageResult.size r ->
     exists blk,
       heap st' !! ImageResult.data r = Some blk /\
       Z.of_nat (length blk) = ImageResult.size r).
Proof.
  intros Hwf.
  assert (Hint : forall (r : ThumbnailResult.t) (st' : State),
            thumbnail_op codec alloc e st = Some (r, st') ->
            INT_MIN <= ThumbnailResult.size r <= INT_MAX).
  { intros r st' H%observed_Some. rewrite thumbnail_observed in H.
    unfold thumbnail_outcome, bitmap_outcome in H.
    repeat case_match; simplify_eq; rewrite ?embedded_result_size; cbn;
      unfold to_int, INT_MIN, INT_MAX; try lia.
    all: match goal with
         | |- context [(?a + 2 ^ 31) mod 2 ^ 32] =>
             pose proof (Z.mod_pos_bound (a + 2 ^ 31) (2 ^ 32) ltac:(lia)); lia
         end. }
  assert (Hint' : forall (half_size : Z) (r : ImageResult.t) (st' : State),
            preview_op codec alloc e half_size st = Some (r, st') ->
            INT_MIN <= ImageResult.size r <= INT_MAX).
  { intros half_size r st' H%observed_Some. rewrite preview_observed in H.
    unfold preview_outcome, bitmap_outcome in H.
    repeat case_match; simplify_eq; cbn; unfold to_int, INT_MIN, INT_MAX; try lia.
    all: match goal with
         | |- context [(?a + 2 ^ 31) mod 2 ^ 32] =>
             pose proof (Z.mod_pos_bound (a + 2 ^ 31) (2 ^ 32) ltac:(lia)); lia
         end. }
  split.
  - intros r st' H Hdata Hsize. pose proof (Hint r st' H) as Hrange.
    apply thumbnail_buffer in H as [[Hz _]|[_ (blk & -> & Hlen)]]; [done|].
    exists blk. split; [apply lookup_insert_eq|].
    rewrite Hlen, to_size_t_id by (done || lia). lia.
  - intros half_size r st' H Hdata Hsize. pose proof (Hint' half_size r st' H) as Hrange.
    apply preview_buffer in H as [[Hz _]|[_ (blk & -> & Hlen)]]; [done|].
    exists blk. split; [apply lookup_insert_eq|].
    rewrite Hlen, to_size_t_id by (done || lia). lia.
Qed.

Lemma buffer_has_size_bytes_witness :
  (exists r st' blk,
     thumbnail_op (codec_with_thumb jpeg_thumb) alloc_plenty sample_file st_init
     = Some (r, st') /\
     ThumbnailResult.size r = 4 /\
     heap st' !! ThumbnailResult.data r = Some blk /\
     Z.of_nat (length blk) = ThumbnailResult.size r) /\
  (exists r st' blk,
     preview_op codec_four_channel alloc_plenty sample_file 0 st_init = Some (r, st') /\
     ImageResult.size r = 4 /\
     heap st' !! ImageResult.data r = Some blk /\
     Z.of_nat (length blk) = ImageResult.size r).
Proof.
  assert (Hwf : alloc_wf alloc_plenty) by (unfold alloc_wf; cbn; lia).
  split.
  - destruct (proj1 (buffer_has_size_bytes (codec_with_thumb jpeg_thumb) alloc_plenty
                       sample_file st_init Hwf) _ _ eq_refl) as (blk & Hb & Hl).
    + vm_compute. discriminate.
    + vm_compute. discriminate.
    + eexists _, _, blk. split; [reflexivity|]. split; [reflexivity|]. by split.
  - destruct (proj2 (buffer_has_size_bytes codec_four_channel alloc_plenty
                       sample_file st_init Hwf) 0 _ _ eq_refl) as (blk & Hb & Hl).
    + vm_compute. discriminate.
    + vm_compute. discriminate.
    + eexists _, _, blk. split; [reflexivity|]. split; [reflexivity|]. by split.
Defined.

(** X6. The format tag and the dimensions go together.  Every thumbnail
    result has format 0 or 1, a result of format 0 has width = height = 0,
    and the result of a call whose source does not open is the zero
    descriptor. *)
Theorem thumbnail_format_invariant (codec : Codec) (alloc : Allocator) (e : Entry)
    (st : State) (r : ThumbnailResult.t) (st' : State) :
  thumbnail_op codec alloc e st = Some (r, st') ->
  (ThumbnailResult.format r = 0 \/ ThumbnailResult.format r = 1) /\
  (ThumbnailResult.format r = 0 ->
   ThumbnailResult.width r = 0 /\ ThumbnailResult.height r = 0) /\
  (open_ret codec (source_of e) <> LIBRAW_SUCCESS -> r = ThumbnailResult.zero).
Proof.
  intros H%observed_Some. rewrite thumbnail_observed in H.
  unfold thumbnail_outcome, bitmap_outcome in H.
  destruct (Z.eqb_spec (open_ret codec (source_of e)) LIBRAW_SUCCESS) as [Ho|Ho]; cbn in H.
  2: { injection H as <- _. cbn. auto. }
  assert (Hemb : forall thumb data,
            (ThumbnailResult.format (embedded_result thumb data) = 0 \/
             ThumbnailResult.format (embedded_result thumb data) = 1) /\
            (ThumbnailResult.format (embedded_result thumb data) = 0 ->
             ThumbnailResult.width (embedded_result thumb data) = 0 /\
             ThumbnailResult.height (embedded_result thumb data) = 0)).
  { intros thumb data.
    destruct (decide (Image.type thumb = LIBRAW_IMAGE_BITMAP)) as [Hb|Hb].
    - destruct (embedded_result_bitmap thumb data Hb) as (-> & _). split; [auto|done].
    - destruct (embedded_result_not_bitmap thumb data Hb) as (-> & -> & ->). auto. }
  repeat case_match; simplify_eq; cbn; try (split; [auto|split; [done|done]]).
  all: split; [apply Hemb|split; [apply Hemb|done]].
Qed.

Lemma thumbnail_format_invariant_witness :
  exists r st',
    thumbnail_op (codec_with_thumb odd_thumb) alloc_plenty sample_file st_init
    = Some (r, st') /\
    (ThumbnailResult.format r = 0 \/ ThumbnailResult.format r = 1) /\
    (ThumbnailResult.format r = 0 ->
     ThumbnailResult.width r = 0 /\ ThumbnailResult.height r = 0).
Proof.
  eexists _, _. split; [reflexivity|].
  destruct (thumbnail_format_invariant (codec_with_thumb odd_thumb) alloc_plenty sample_file
              st_init _ _ eq_refl) as (H1 & H2 & _).
  by split.
Defined.

(** ** Properties of the traces *)

(** Every returning run of a preview operation is one of six branches;
    the tactic leaves one goal for each, with the run's result and state
    made explicit and its operations in [Hq]. *)
Ltac preview_branches codec alloc e half_size st H :=
  let Ho := fresh "Ho" in
  let Hu := fresh "Hu" in
  let Hp := fresh "Hp" in
  let Hi := fresh "Hi" in
  let Ha := fresh "Ha" in
  let Hb := fresh "Hb" in
  let image := fresh "image" in
  let blk := fresh "blk" in
  destruct (Z.eqb_spec (open_ret codec (source_of e)) LIBRAW_SUCCESS) as [Ho|Ho];
  [ destruct (Z.eqb_spec (unpack_ret codec (source_of e) (preview_params codec half_size))
                LIBRAW_SUCCESS) as [Hu|Hu];
    [ destruct (Z.eqb_spec (dcraw_process_ret codec (source_of e)
                  (preview_params codec half_size)) LIBRAW_SUCCESS) as [Hp|Hp];
      [ destruct (mem_image codec (source_of e) (preview_params codec half_size))
          as [image|] eqn:Hi;
        [ destruct (alloc_ok alloc (malloc_request alloc image)) eqn:Ha;
          [ pose proof (preview_image_ok codec alloc e half_size st image Ho Hu Hp Hi Ha)
              as Hb;
            cbn zeta in Hb;
            destruct (converted image _) as [blk|]; [|congruence];
            same_run H Hb
          | same_run H (preview_alloc_fails codec alloc e half_size st image Ho Hu Hp Hi Ha) ]
        | same_run H (preview_no_image codec alloc e half_size st Ho Hu Hp Hi) ]
      | same_run H (preview_process_fails codec alloc e half_size st Ho Hu Hp) ]
    | same_run H (preview_unpack_fails codec alloc e half_size st Ho Hu) ]
  | same_run H (preview_open_fails codec alloc e half_size st Ho) ].

(** The same for a thumbnail operation; on the fallback branches the
    embedded-thumbnail attempt is split in its two ways of failing. *)
Ltac thumbnail_branches codec alloc e st H :=
  let Ho := fresh "Ho" in
  let He := fresh "He" in
  let Hu := fresh "Hu" in
  let Hp := fresh "Hp" in
  let Hi := fresh "Hi" in
  let Ha := fresh "Ha" in
  let Hb := fresh "Hb" in
  let Hle := fresh "Hle" in
  let thumb := fresh "thumb" in
  let image := fresh "image" in
  let blk := fresh "blk" in
  let Ht := fresh "Ht" in
  destruct (Z.eqb_spec (open_ret codec (source_of e)) LIBRAW_SUCCESS) as [Ho|Ho];
  [ destruct (embedded codec (source_of e)) as [thumb|] eqn:He;
    [ destruct (alloc_ok alloc (malloc_request alloc thumb)) eqn:Ha;
      [ pose proof (thumbnail_embedded_ok codec alloc e st thumb Ho He Ha) as Hb;
        cbn zeta in Hb;
        destruct (Nat.leb_spec (Z.to_nat (malloc_request alloc thumb))
                    (length (Image.data thumb))) as [Hle|Hle]; [|congruence];
        same_run H Hb
      | same_run H (thumbnail_embedded_alloc_fails codec alloc e st thumb Ho He Ha) ]
    | destruct (Z.eqb_spec (unpack_ret codec (source_of e) (fallback_params codec))
                  LIBRAW_SUCCESS) as [Hu|Hu];
      [ destruct (Z.eqb_spec (dcraw_process_ret codec (source_of e)
                    (fallback_params codec)) LIBRAW_SUCCESS) as [Hp|Hp];
        [ destruct (mem_image codec (source_of e) (fallback_params codec))
            as [image|] eqn:Hi;
          [ destruct (alloc_ok alloc (malloc_request alloc image)) eqn:Ha;
            [ pose proof (fallback_image_ok codec alloc e st image Ho He Hu Hp Hi Ha) as Hb;
              cbn zeta in Hb;
              destruct (converted image _) as [blk|]; [|congruence];
              same_run H Hb
            | same_run H (fallback_alloc_fails codec alloc e st image Ho He Hu Hp Hi Ha) ]
          | same_run H (fallback_no_image codec alloc e st Ho He Hu Hp Hi) ]
        | same_run H (fallback_process_fails codec alloc e st Ho He Hu Hp) ]
      | same_run H (fallback_unpack_fails codec alloc e st Ho He Hu) ];
      unfold thumb_attempt in *; unfold embedded in He;
      (destruct (unpack_thumb_ret codec (source_of e) =? LIBRAW_SUCCESS) eqn:Ht;
       [ rewrite He in * | idtac ]) ]
  | same_run H (thumbnail_open_fails codec alloc e st Ho) ].

(** X7. A preview never touches the embedded thumbnail.  Among the
    operations of a returning preview call there is no [unpack_thumb] and
    no [dcraw_make_mem_thumb]: a preview is always rendered from the
    sensor data. *)
Theorem preview_skips_thumbnail (codec : Codec) (alloc : Allocator) (e : Entry)
    (half_size : Z) (st : State) (r : ImageResult.t) (st' : State) :
  preview_op codec alloc e half_size st = Some (r, st') ->
  exists evs,
    quiet (trace st') = evs ++ quiet (trace st) /\
    forallb (fun ev => negb (is_thumb ev)) evs = true.
Proof.
  intros H. preview_branches codec alloc e half_size st H.
  all: eexists; split; [eassumption|reflexivity].
Qed.

Lemma preview_skips_thumbnail_witness :
  exists r st' evs,
    preview_op (codec_with_thumb jpeg_thumb) alloc_plenty sample_file 1 st_init
    = Some (r, st') /\
    quiet (trace st') = evs ++ quiet (trace st_init) /\
    forallb (fun ev => negb (is_thumb ev)) evs = true.
Proof.
  destruct (preview_skips_thumbnail (codec_with_thumb jpeg_thumb) alloc_plenty sample_file 1
              st_init _ _ eq_refl) as (evs & Hq & Hn).
  eexists _, _, evs. split; [reflexivity|]. by split.
Defined.

(** X8. An embedded thumbnail is never rendered.  When the source opens
    and the codec extracts an embedded thumbnail, the operations of a
    returning thumbnail call contain no [unpack], no [dcraw_process] and
    no [dcraw_make_mem_image]: the sensor data are left alone. *)
Theorem embedded_skips_rendering (codec : Codec) (alloc : Allocator) (e : Entry)
    (st : State) (thumb : Image.t) (r : ThumbnailResult.t) (st' : State) :
  open_ret codec (source_of e) = LIBRAW_SUCCESS ->
  embedded codec (source_of e) = Some thumb ->
  thumbnail_op codec alloc e st = Some (r, st') ->
  exists evs,
    quiet (trace st') = evs ++ quiet (trace st) /\
    forallb (fun ev => negb (is_render ev)) evs = true.
Proof.
  intros Hopen Hemb H. thumbnail_branches codec alloc e st H; try congruence.
  all: eexists; split; [eassumption|reflexivity].
Qed.

Lemma embedded_skips_rendering_witness :
  exists r st' evs,
    thumbnail_op (codec_with_thumb jpeg_thumb) alloc_plenty sample_wide_file st_init
    = Some (r, st') /\
    quiet (trace st') = evs ++ quiet (trace st_init) /\
    forallb (fun ev => negb (is_render ev)) evs = true.
Proof.
  destruct (embedded_skips_rendering (codec_with_thumb jpeg_thumb) alloc_plenty
              sample_wide_file st_init jpeg_thumb _ _ eq_refl eq_refl eq_refl)
    as (evs & Hq & Hn).
  eexists _, _, evs. split; [reflexivity|]. by split.
Defined.


Example out_of_order_rejected :
  in_order [EvDestroy; EvRecycle; EvProcess libraw_defaults LIBRAW_SUCCESS;
            EvOpen (source_of sample_file) LIBRAW_SUCCESS; EvCreate] = false /\
  in_order [EvDestroy; EvRecycle; EvMakeMemThumb true; EvUnpackThumb LIBRAW_SUCCESS;
            EvOpen (source_of sample_file) LIBRAW_SUCCESS; EvCreate] = false /\
  in_order [EvRecycle; EvOpen (source_of sample_file) LIBRAW_SUCCESS; EvCreate] = false.
Proof. by repeat split. Qed.


(** X10. What a preview asks of the codec.  Whenever the source opens, a
    returning preview call has called [unpack] under camera white balance
    (1), the caller's [half_size] passed on as it is (whatever its
    value), 8-bit output and sRGB output colour (1). *)
Theorem preview_parameters (codec : Codec) (alloc : Allocator) (e : Entry)
    (half_size : Z) (st : State) (r : ImageResult.t) (st' : State) :
  open_ret codec (source_of e) = LIBRAW_SUCCESS ->
  preview_op codec alloc e half_size st = Some (r, st') ->
  exists p,
    In (EvUnpack p (unpack_ret codec (source_of e) p)) (trace st') /\
    Params.use_camera_wb p = 1 /\ Params.half_size p = half_size /\
    Params.output_bps p = 8 /\ Params.output_color p = 1.
Proof.
  intros Hopen H. exists (preview_params codec half_size). split; [|done].
  preview_branches codec alloc e half_size st H; try congruence.
  all: rewrite ?Hu; in_trace Hq.
Qed.

Lemma preview_parameters_witness :
  exists r st' p,
    preview_op codec_without_thumb alloc_plenty sample_file 7 st_init = Some (r, st') /\
    In (EvUnpack p LIBRAW_SUCCESS) (trace st') /\
    Params.use_camera_wb p = 1 /\ Params.half_size p = 7 /\
    Params.output_bps p = 8 /\ Params.output_color p = 1.
Proof.
  destruct (preview_parameters codec_without_thumb alloc_plenty sample_file 7 st_init _ _
              eq_refl eq_refl) as (p & Hin & Hp).
  eexists _, _, p. split; [reflexivity|]. by split.
Defined.

Lemma fallback_params_preview (codec : Codec) :
  Params.output_color (default_params codec) = 1 ->
  fallback_params codec = preview_params codec 1.
Proof.
  unfold fallback_params, preview_params. destruct (default_params codec). cbn.
  by intros ->.
Qed.

(** X11. The thumbnail fallback is the half-size preview.  With a codec
    whose new objects have output colour 1 (sRGB), on a source that opens
    and has no embedded thumbnail, a thumbnail call and a preview call
    with [half_size = 1] from the same state return the same data pointer,
    byte count, width and height and leave the same heap, buffer contents
    included. *)
Theorem fallback_is_half_size_preview (codec : Codec) (alloc : Allocator) (e : Entry)
    (st : State) (rt : ThumbnailResult.t) (stt : State) (rp : ImageResult.t)
    (stp : State) :
  Params.output_color (default_params codec) = 1 ->
  open_ret codec (source_of e) = LIBRAW_SUCCESS ->
  embedded codec (source_of e) = None ->
  thumbnail_op codec alloc e st = Some (rt, stt) ->
  preview_op codec alloc e 1 st = Some (rp, stp) ->
  ThumbnailResult.data rt = ImageResult.data rp /\
  ThumbnailResult.size rt = ImageResult.size rp /\
  ThumbnailResult.width rt = ImageResult.width rp /\
  ThumbnailResult.height rt = ImageResult.height rp /\
  heap stt = heap stp.
Proof.
  intros Hc Ho He Ht%observed_Some Hp%observed_Some.
  rewrite thumbnail_observed in Ht. rewrite preview_observed in Hp.
  unfold thumbnail_outcome in Ht. unfold preview_outcome in Hp.
  rewrite Ho, He, (fallback_params_preview codec Hc) in Ht. cbn in Ht.
  destruct (rendered _ _ _) as [image|].
  - unfold bitmap_outcome in Ht, Hp.
    repeat case_match; try done.
    all: injection Ht as <- Hh1; injection Hp as <- Hh2; cbn; repeat split; congruence.
  - injection Ht as <- Hh1. injection Hp as <- Hh2. cbn. repeat split; congruence.
Qed.

Lemma fallback_is_half_size_preview_witness :
  exists rt stt rp stp,
    thumbnail_op codec_without_thumb alloc_plenty sample_file st_init = Some (rt, stt) /\
    preview_op codec_without_thumb alloc_plenty sample_file 1 st_init = Some (rp, stp) /\
    ThumbnailResult.data rt <> nullptr /\
    ThumbnailResult.data rt = ImageResult.data rp /\
    ThumbnailResult.size rt = ImageResult.size rp /\
    ThumbnailResult.width rt = ImageResult.width rp /\
    ThumbnailResult.height rt = ImageResult.height rp /\
    heap stt = heap stp.
Proof.
  eexists _, _, _, _. split; [reflexivity|]. split; [reflexivity|].
  split; [vm_compute; discriminate|].
  eapply (fallback_is_half_size_preview codec_without_thumb alloc_plenty sample_file
            st_init); reflexivity.
Defined.

(** ** More on the conversion loop *)

(** Above the pixels it converts, the loop leaves the block alone. *)
Lemma swap_loop_above (n : nat) : forall (i : Z) (src dst out : list uint8_t) (k : nat),
  0 <= i -> swap_loop n i src dst = Some out ->
  3 * (i + Z.of_nat n) <= Z.of_nat k -> out !! k = dst !! k.
Proof.
  induction n as [|n IH]; intros i src dst out k Hi H Hk.
  - by injection H as <-.
  - apply swap_loop_step in H as (b & g & r & _ & _ & _ & _ & H); [|done].
    rewrite (IH (i + 1) _ _ _ k) by (done || lia).
    rewrite !list_lookup_insert_ne by lia. done.
Qed.

Lemma pixel_Some (l : list uint8_t) (i : nat) (c0 c1 c2 : uint8_t) :
  pixel l i = Some (c0, c1, c2) <->
  l !! (3 * i)%nat = Some c0 /\ l !! (3 * i + 1)%nat = Some c1 /\
  l !! (3 * i + 2)%nat = Some c2.
Proof.
  unfold pixel. split.
  - intros H.
    apply bind_Some in H as (a & Ha & H).
    apply bind_Some in H as (b & Hb & H).
    apply bind_Some in H as (c & Hc & H).
    by simplify_eq.
  - intros (-> & -> & ->). done.
Qed.

(** X12. The conversion undoes itself.  Running the loop on the output
    of a run over the same number of pixels gives every pixel its source
    bytes back. *)
Theorem swap_loop_involutive (n : nat) (src dst out dst' back : list uint8_t) (i : nat) :
  swap_loop n 0 src dst = Some out ->
  swap_loop n 0 out dst' = Some back ->
  (i < n)%nat ->
  is_Some (pixel src i) /\ pixel back i = pixel src i.
Proof.
  intros H1 H2 Hi.
  destruct (swap_loop_pixels n 0 src dst out i ltac:(lia) H1 ltac:(lia))
    as (c0 & c1 & c2 & Hs & Ho).
  destruct (swap_loop_pixels n 0 out dst' back i ltac:(lia) H2 ltac:(lia))
    as (d0 & d1 & d2 & Ho' & Hb).
  rewrite Ho in Ho'. injection Ho' as <- <- <-.
  rewrite Hs, Hb. eauto.
Qed.

Lemma swap_loop_involutive_witness :
  pixel [Byte.x01; Byte.x02; Byte.x03; Byte.x04; Byte.x05; Byte.x06] 1
  = Some (Byte.x04, Byte.x05, Byte.x06) /\
  exists out back,
    swap_loop 2 0 [Byte.x01; Byte.x02; Byte.x03; Byte.x04; Byte.x05; Byte.x06]
      (replicate 6 Byte.x00) = Some out /\
    swap_loop 2 0 out (replicate 7 Byte.xee) = Some back /\
    pixel back 1 = pixel [Byte.x01; Byte.x02; Byte.x03; Byte.x04; Byte.x05; Byte.x06] 1.
Proof.
  split; [reflexivity|].
  eexists _, _. split; [reflexivity|]. split; [reflexivity|].
  eapply (swap_loop_involutive 2 _ (replicate 6 Byte.x00) _ (replicate 7 Byte.xee));
    [reflexivity | reflexivity | lia].
Defined.

Lemma converted_above (image : Image.t) (blk out : list uint8_t) (k : nat) :
  converted image blk = Some out ->
  Image.width image * Image.height image * 3 <= Z.of_nat k ->
  out !! k = blk !! k.
Proof.
  unfold converted. intros H Hk.
  apply bind_Some in H as (tp & [-> _]%int_mul_Some & H).
  eapply swap_loop_above; [|exact H|]; lia.
Qed.

(** X13. The loop writes the pixels and nothing else.  In the buffer of
    a returned preview, or of a thumbnail made by the fallback, every byte
    at an offset of [width * height * 3] or more is still the byte [malloc]
    left there: what the codec's image holds beyond three bytes per pixel
    is not copied, and that part of the buffer is not initialised. *)
Theorem bytes_beyond_pixels_unwritten (codec : Codec) (alloc : Allocator) (e : Entry)
    (st : State) :
  (forall (half_size : Z) (r : ImageResult.t) (st' : State),
     preview_op codec alloc e half_size st = Some (r, st') ->
     ImageResult.data r <> nullptr ->
     exists blk,
       heap st' !! ImageResult.data r = Some blk /\
       forall k : nat,
         ImageResult.width r * ImageResult.height r * 3 <= Z.of_nat k ->
         (k < length blk)%nat ->
         blk !! k = Some (fill alloc)) /\
  (forall (r : ThumbnailResult.t) (st' : State),
     thumbnail_op codec alloc e st = Some (r, st') ->
     ThumbnailResult.data r <> nullptr ->
     embedded codec (source_of e) = None ->
     exists blk,
       heap st' !! ThumbnailResult.data r = Some blk /\
       forall k : nat,
         ThumbnailResult.width r * ThumbnailResult.height r * 3 <= Z.of_nat k ->
         (k < length blk)%nat ->
         blk !! k = Some (fill alloc)).
Proof.
  assert (Hfill : forall image out (k : nat),
            converted image (new_block alloc (to_int (Image.data_size image))) = Some out ->
            Image.width image * Image.height image * 3 <= Z.of_nat k ->
            (k < length out)%nat -> out !! k = Some (fill alloc)).
  { intros image out k Hc Hk Hlen.
    rewrite (converted_above image _ out k Hc Hk).
    apply converted_length in Hc. rewrite Hc in Hlen.
    unfold new_block in *. rewrite length_replicate in Hlen.
    by apply lookup_replicate_2. }
  split.
  - intros half_size r st' H Hdata.
    apply preview_cases in H as (evs & _ & _ & _ & H).
    destruct (rendered _ _ _) as [image|]; [|by destruct H as [-> _]].
    destruct (alloc_ok _ _); destruct H as [-> H]; [|done].
    destruct H as (blk & Hc & ->). exists blk. split; [apply lookup_insert_eq|].
    intros k Hk Hlen. by apply (Hfill image).
  - intros r st' H Hdata He.
    apply thumbnail_cases in H as (evs & _ & _ & _ & H).
    rewrite He in H.
    destruct (negb _); [by destruct H as [-> _]|].
    destruct (rendered _ _ _) as [image|]; [|by destruct H as [-> _]].
    destruct (alloc_ok _ _); destruct H as [-> H]; [|done].
    destruct H as (blk & Hc & ->). exists blk. split; [apply lookup_insert_eq|].
    intros k Hk Hlen. by apply (Hfill image).
Qed.

Lemma bytes_beyond_pixels_unwritten_witness :
  exists r st' blk,
    preview_op codec_four_channel alloc_marked sample_file 0 st_init = Some (r, st') /\
    ImageResult.size r = 4 /\
    heap st' !! ImageResult.data r = Some blk /\
    length blk = 4%nat /\
    blk !! 3%nat = Some Byte.xee.
Proof.
  destruct (proj1 (bytes_beyond_pixels_unwritten codec_four_channel alloc_marked sample_file
                     st_init) 0 _ _ eq_refl) as (blk & Hb & Htail).
  - vm_compute. discriminate.
  - assert (Hblk : blk = [Byte.x0c; Byte.x0b; Byte.x0a; Byte.xee])
      by (vm_compute in Hb; congruence).
    eexists _, _, blk. split; [reflexivity|]. split; [reflexivity|].
    split; [exact Hb|]. split; [by rewrite Hblk|].
    apply Htail; [cbn; lia | rewrite Hblk; cbn; lia].
Defined.

(** ** The conversion as a list function *)

Lemma bgr_length (n : nat) : forall l : list uint8_t,
  length l = (3 * n)%nat -> length (bgr l) = (3 * n)%nat.
Proof.
  induction n as [|n IH]; intros l Hl.
  - by destruct l.
  - destruct l as [|c0 [|c1 [|c2 rest]]]; cbn in Hl; try lia.
    cbn. rewrite (IH rest) by lia. lia.
Qed.

Lemma bgr_pixel (i : nat) : forall (l : list uint8_t) (c0 c1 c2 : uint8_t),
  pixel l i = Some (c0, c1, c2) -> pixel (bgr l) i = Some (c2, c1, c0).
Proof.
  induction i as [|i IH]; intros l c0 c1 c2 H.
  - destruct l as [|a [|b [|c rest]]]; try done.
    cbn in H. by injection H as <- <- <-.
  - destruct l as [|a [|b [|c rest]]].
    + done.
    + apply pixel_Some in H as (H & _).
      replace (3 * S i)%nat with (S (S (S (3 * i)))) in H by lia. done.
    + apply pixel_Some in H as (H & _).
      replace (3 * S i)%nat with (S (S (S (3 * i)))) in H by lia. done.
    + assert (Hrest : pixel rest i = Some (c0, c1, c2)).
      { apply pixel_Some in H as (H0 & H1 & H2). apply pixel_Some.
        replace (3 * S i)%nat with (S (S (S (3 * i)))) in * by lia.
        by cbn in H0, H1, H2. }
      apply IH in Hrest. apply pixel_Some in Hrest as (H0 & H1 & H2).
      apply pixel_Some.
      replace (3 * S i)%nat with (S (S (S (3 * i)))) by lia. by cbn.
Qed.

(** On buffers of exactly [n] pixels the loop computes [bgr]. *)
Lemma swap_loop_bgr (n : nat) (src dst out : list uint8_t) :
  swap_loop n 0 src dst = Some out ->
  length src = (3 * n)%nat -> length dst = (3 * n)%nat ->
  out = bgr src.
Proof.
  intros H Hs Hd.
  pose proof (swap_loop_length n 0 src dst out ltac:(lia) H) as Ho.
  pose proof (bgr_length n src Hs) as Hb.
  apply list_eq. intros k.
  destruct (decide (k < 3 * n)%nat) as [Hlt|Hge].
  - pose proof (Nat.div_mod_eq k 3) as Hk.
    pose proof (Nat.mod_upper_bound k 3 ltac:(lia)) as Hm.
    destruct (swap_loop_pixels n 0 src dst out (k / 3) ltac:(lia) H ltac:(lia))
      as (c0 & c1 & c2 & Hp & Hq).
    apply bgr_pixel in Hp.
    apply pixel_Some in Hp as (P0 & P1 & P2), Hq as (Q0 & Q1 & Q2).
    destruct (k mod 3)%nat as [|[|[|?]]] eqn:Hmod; try lia.
    + replace k with (3 * (k / 3))%nat by lia. congruence.
    + replace k with (3 * (k / 3) + 1)%nat by lia. congruence.
    + replace k with (3 * (k / 3) + 2)%nat by lia. congruence.
  - rewrite !lookup_ge_None_2 by lia. done.
Qed.

(** X14. The whole buffer, for the images the wrappers are written for.
    For an 8-bit three-channel image, the buffer of a returned preview, or
    of a thumbnail made by the fallback, is the image's bytes with every
    triple reversed and nothing else: [bgr] of the codec's data. *)
Theorem bitmap_buffer_is_bgr (codec : Codec) (alloc : Allocator) (e : Entry) (st : State)
    (image : Image.t) :
  alloc_wf alloc ->
  rgb8 image ->
  (forall (half_size : Z) (r : ImageResult.t) (st' : State),
     rendered codec (source_of e) (preview_params codec half_size) = Some image ->
     preview_op codec alloc e half_size st = Some (r, st') ->
     ImageResult.data r <> nullptr ->
     heap st' !! ImageResult.data r = Some (bgr (Image.data image))) /\
  (forall (r : ThumbnailResult.t) (st' : State),
     embedded codec (source_of e) = None ->
     rendered codec (source_of e) (fallback_params codec) = Some image ->
     thumbnail_op codec alloc e st = Some (r, st') ->
     ThumbnailResult.data r <> nullptr ->
     heap st' !! ThumbnailResult.data r = Some (bgr (Image.data image))).
Proof.
  intros Hwf Hrgb.
  assert (Hbgr : forall blk,
            converted image (new_block alloc (to_int (Image.data_size image))) = Some blk ->
            blk = bgr (Image.data image)).
  { intros blk Hc. destruct Hrgb as (Hw & Hh & _ & _ & Hds & Hlen & Hmax).
    unfold converted in Hc.
    apply bind_Some in Hc as (tp & [-> _]%int_mul_Some & Hc).
    apply swap_loop_bgr in Hc; [done|nia|].
    unfold new_block. rewrite length_replicate.
    rewrite to_int_id, to_size_t_id by (done || nia). nia. }
  split.
  - intros half_size r st' Hr H Hdata.
    apply preview_cases in H as (evs & _ & _ & _ & H). rewrite Hr in H.
    destruct (alloc_ok _ _); destruct H as [-> H]; [|done].
    destruct H as (blk & Hc & ->). rewrite lookup_insert_eq. f_equal. by apply Hbgr.
  - intros r st' He Hr H Hdata.
    apply thumbnail_cases in H as (evs & _ & _ & _ & H). rewrite He, Hr in H.
    destruct (negb _); [by destruct H as [-> _]|].
    destruct (alloc_ok _ _); destruct H as [-> H]; [|done].
    destruct H as (blk & Hc & ->). rewrite lookup_insert_eq. f_equal. by apply Hbgr.
Qed.

Lemma full_image_rgb8 : rgb8 full_image.
Proof. unfold rgb8, INT_MAX. cbn. lia. Qed.

Lemma bitmap_buffer_is_bgr_witness :
  (exists r st',
     preview_op codec_without_thumb alloc_plenty sample_file 0 st_init = Some (r, st') /\
     heap st' !! ImageResult.data r = Some (bgr (Image.data full_image))) /\
  (exists r st',
     thumbnail_op codec_without_thumb alloc_plenty sample_buffer st_init = Some (r, st') /\
     heap st' !! ThumbnailResult.data r = Some (bgr (Image.data half_image))).
Proof.
  assert (Hwf : alloc_wf alloc_plenty) by (unfold alloc_wf; cbn; lia).
  split.
  - eexists _, _. split; [reflexivity|].
    eapply (proj1 (bitmap_buffer_is_bgr codec_without_thumb alloc_plenty sample_file st_init
                     full_image Hwf full_image_rgb8) 0);
      [reflexivity | reflexivity | vm_compute; discriminate].
  - eexists _, _. split; [reflexivity|].
    eapply (proj2 (bitmap_buffer_is_bgr codec_without_thumb alloc_plenty sample_buffer
                     st_init half_image Hwf half_image_rgb8));
      [reflexivity | reflexivity | reflexivity | vm_compute; discriminate].
Defined.

Lemma to_int_wraps (u : Z) : INT_MAX < u < 2 ^ 32 -> to_int u = u - 2 ^ 32.
Proof.
  unfold to_int, INT_MAX. intros Hu.
  replace (u + 2 ^ 31) with (u - 2 ^ 31 + 1 * 2 ^ 32) by lia.
  rewrite Z.mod_add by lia. rewrite Z.mod_small by lia. lia.
Qed.

(** X15. A byte count that does not fit an [int] comes back negative.
    When the codec reports a payload of more than [INT_MAX] bytes (an
    [unsigned] below 2^32), the result of a returning call carries
    [data_size - 2^32] as its size, a negative number: for an embedded
    thumbnail and for the image of a preview alike. *)
Theorem large_payload_size_negative (codec : Codec) (alloc : Allocator) (e : Entry)
    (st : State) (image : Image.t) :
  INT_MAX < Image.data_size image < 2 ^ 32 ->
  (forall (r : ThumbnailResult.t) (st' : State),
     open_ret codec (source_of e) = LIBRAW_SUCCESS ->
     embedded codec (source_of e) = Some image ->
     thumbnail_op codec alloc e st = Some (r, st') ->
     ThumbnailResult.size r = Image.data_size image - 2 ^ 32 /\
     ThumbnailResult.size r < 0) /\
  (forall (half_size : Z) (r : ImageResult.t) (st' : State),
     rendered codec (source_of e) (preview_params codec half_size) = Some image ->
     preview_op codec alloc e half_size st = Some (r, st') ->
     ImageResult.size r = Image.data_size image - 2 ^ 32 /\
     ImageResult.size r < 0).
Proof.
  intros Hds. pose proof (to_int_wraps _ Hds) as Hw. split.
  - intros r st' Ho He H.
    apply thumbnail_cases in H as (evs & _ & _ & _ & H).
    rewrite He in H. apply Z.eqb_eq in Ho. rewrite Ho in H. cbn in H.
    destruct (alloc_ok _ _).
    + destruct H as (-> & _). rewrite embedded_result_size, Hw. lia.
    + destruct H as (-> & _). rewrite embedded_result_size, Hw. lia.
  - intros half_size r st' Hr H.
    apply preview_cases in H as (evs & _ & _ & _ & H). rewrite Hr in H.
    destruct (alloc_ok _ _); destruct H as (-> & _); cbn; rewrite Hw; lia.
Qed.

Lemma large_payload_size_negative_witness :
  exists r st',
    thumbnail_op (codec_with_thumb huge_thumb) alloc_exhausted sample_file st_init
    = Some (r, st') /\
    ThumbnailResult.size r = -2147483632 /\ ThumbnailResult.size r < 0.
Proof.
  eexists _, _. split; [reflexivity|].
  eapply (proj1 (large_payload_size_negative (codec_with_thumb huge_thumb) alloc_exhausted
                   sample_file st_init huge_thumb _));
    reflexivity.
  Unshelve. cbn. unfold INT_MAX. lia.
Defined.

(** X16. Nothing is tried twice.  No two operations of a returning
    decode call are of the same kind: the source is opened once, each
    codec stage is called at most once (a failed stage is not retried),
    at most one image is materialised and cleared, and [malloc] is called
    at most once. *)
Theorem no_operation_repeated (codec : Codec) (alloc : Allocator) (e : Entry) (st : State) :
  (forall (r : ThumbnailResult.t) (st' : State),
     thumbnail_op codec alloc e st = Some (r, st') ->
     exists evs, quiet (trace st') = evs ++ quiet (trace st) /\ NoDup (kind <$> evs)) /\
  (forall (half_size : Z) (r : ImageResult.t) (st' : State),
     preview_op codec alloc e half_size st = Some (r, st') ->
     exists evs, quiet (trace st') = evs ++ quiet (trace st) /\ NoDup (kind <$> evs)).
Proof.
  split.
  - intros r st' H. thumbnail_branches codec alloc e st H.
    all: eexists; split; [eassumption|].
    all: cbn; by apply (bool_decide_unpack _).
  - intros half_size r st' H. preview_branches codec alloc e half_size st H.
    all: eexists; split; [eassumption|].
    all: cbn; by apply (bool_decide_unpack _).
Qed.

Lemma no_operation_repeated_witness :
  exists r st' evs,
    thumbnail_op codec_bad_data alloc_plenty sample_file st_init = Some (r, st') /\
    quiet (trace st') = evs ++ quiet (trace st_init) /\ NoDup (kind <$> evs).
Proof.
  destruct (proj1 (no_operation_repeated codec_bad_data alloc_plenty sample_file st_init)
              _ _ eq_refl) as (evs & Hq & Hn).
  eexists _, _, evs. split; [reflexivity|]. by split.
Defined.

(** X17. The one allocation is the returned buffer.  Every [malloc] among
    the operations of a returning decode call was asked for the byte
    count of the result, converted to [size_t], and returned the data
    pointer of the result. *)
Theorem allocation_matches_result (codec : Codec) (alloc : Allocator) (e : Entry)
    (st : State) :
  (forall (r : ThumbnailResult.t) (st' : State),
     thumbnail_op codec alloc e st = Some (r, st') ->
     exists evs,
       quiet (trace st') = evs ++ quiet (trace st) /\
       forall (n : Z) (p : ptr),
         In (EvMalloc n p) evs ->
         n = to_size_t (size_t_bits alloc) (ThumbnailResult.size r) /\
         p = ThumbnailResult.data r) /\
  (forall (half_size : Z) (r : ImageResult.t) (st' : State),
     preview_op codec alloc e half_size st = Some (r, st') ->
     exists evs,
       quiet (trace st') = evs ++ quiet (trace st) /\
       forall (n : Z) (p : ptr),
         In (EvMalloc n p) evs ->
         n = to_size_t (size_t_bits alloc) (ImageResult.size r) /\
         p = ImageResult.data r).
Proof.
  split.
  - intros r st' H. thumbnail_branches codec alloc e st H.
    all: eexists; split; [eassumption|].
    all: intros n p Hin; cbn in Hin;
      rewrite ?embedded_result_size, ?embedded_result_data; unfold malloc_request in *;
      cbn; intuition congruence.
  - intros half_size r st' H. preview_branches codec alloc e half_size st H.
    all: eexists; split; [eassumption|].
    all: intros n p Hin; cbn in Hin; unfold malloc_request in *;
      cbn; intuition congruence.
Qed.

Lemma allocation_matches_result_witness :
  exists r st' evs,
    preview_op codec_without_thumb alloc_plenty sample_file 1 st_init = Some (r, st') /\
    quiet (trace st') = evs ++ quiet (trace st_init) /\
    In (EvMalloc 6 1%N) evs /\
    6 = to_size_t 64 (ImageResult.size r) /\ 1%N = ImageResult.data r.
Proof.
  destruct (proj2 (allocation_matches_result codec_without_thumb alloc_plenty sample_file
                     st_init) 1 _ _ eq_refl) as (evs & Hq & Hm).
  assert (Hin : In (EvMalloc 6 1%N) evs).
  { change (quiet (trace st_init)) with (@nil Event) in Hq.
    rewrite app_nil_r in Hq. rewrite <- Hq. vm_compute. auto 12. }
  eexists _, _, evs. split; [reflexivity|]. split; [exact Hq|]. split; [exact Hin|].
  exact (Hm 6 1%N Hin).
Defined.
